(** * Branch lifecycle and branch queries of app/src/lib/git/branch.ts

    A shallow embedding of [createBranch], [deleteLocalBranch],
    [deleteBranch], [getBranchesPointedAt] and [getMergedBranches].

    The functions are asynchronous and talk to collaborators that live in
    other modules (the command gateway [git], [getBranches], [deleteRef],
    [gitNetworkArguments], [getRemoteURL], [envForRemoteOperation], the
    logger).  Every [await] is a bind of a small monad that threads the
    history of interactions and may reject; the collaborators' answers are
    supplied by a [World].  Text is a Rocq [string]: the two separators the
    parsers look for, line feed and NUL, are single characters in it as they
    are single code units in the JavaScript string. *)

From Stdlib Require Import ZArith Ascii String List Lia Sorted.
From stdpp Require Import base decidable countable list strings gmap.

Local Open Scope list_scope.

(** ** The JavaScript primitives the source relies on *)

Module JS.

(** ['\n'] and ['\0']. *)
Definition LF : ascii := Ascii.ascii_of_nat 10.
Definition NUL : ascii := Ascii.ascii_of_nat 0.

(** [s.split(sep)] for a one-character separator: the pieces between the
    occurrences of [sep], in order; [n] occurrences give [n + 1] pieces and
    the empty string gives one empty piece. *)
Fixpoint split (sep : ascii) (s : string) : list string :=
  match s with
  | EmptyString => [EmptyString]
  | String c rest =>
      if Ascii.eqb c sep then EmptyString :: split sep rest
      else match split sep rest with
           | [] => [String c EmptyString]
           | piece :: pieces => String c piece :: pieces
           end
  end.

(** The relative index of [Array.prototype.slice] and [splice]: negative
    indices count from the end, everything is clamped to [0 .. len]. *)
Definition relIndex (len : nat) (i : Z) : nat :=
  if (i <? 0)%Z then Z.to_nat (Z.max (Z.of_nat len + i) 0)
  else Z.to_nat (Z.min i (Z.of_nat len)).

(** [l.slice(start, end)]. *)
Definition slice {A} (l : list A) (start end_ : Z) : list A :=
  let from := relIndex (length l) start in
  let to := relIndex (length l) end_ in
  take (to - from) (drop from l).

(** [l.splice(start, deleteCount)]: the array as it is left after the
    call (the removed elements, which the call returns, are not used by
    the source). *)
Definition splice {A} (l : list A) (start deleteCount : Z) : list A :=
  let from := relIndex (length l) start in
  let count := Z.to_nat (Z.min (Z.max deleteCount 0)
                               (Z.of_nat (length l) - Z.of_nat from)) in
  take from l ++ drop (from + count) l.

(** [s.startsWith(p)]. *)
Definition startsWith (s p : string) : bool := String.prefix p s.

(** Truthiness of a [string | null]: null and the empty string are falsy. *)
Definition truthy (v : option string) : bool :=
  match v with
  | Some EmptyString | None => false
  | Some _ => true
  end.

(** [a || b] on [string | null] with a string on the right. *)
Definition orElse (v : option string) (dflt : string) : string :=
  match v with
  | Some (String _ _ as s) => s
  | _ => dflt
  end.

(** Array destructuring [const [a, b] = arr]: a missing position is
    [undefined]. *)
Definition destructure2 {A} (arr : list A) : option A * option A :=
  (arr !! 0%nat, arr !! 1%nat).

End JS.

(** Lines of command output: every line is followed by a line feed. *)
Fixpoint unlines (ls : list string) : string :=
  match ls with
  | [] => EmptyString
  | l :: rest => l +:+ String JS.LF (unlines rest)
  end.

(** A piece of text that contains no occurrence of the character [c]. *)
Fixpoint freeOf (c : ascii) (s : string) : bool :=
  match s with
  | EmptyString => true
  | String d rest => negb (Ascii.eqb d c) && freeOf c rest
  end.

(** ** Data model *)

(** [BranchType] of models/branch: [Local = 0], [Remote = 1]. *)
Inductive BranchType := Local | Remote.

(** Modelled from the spec: the [Branch] value object (models/branch is not
    part of this file); the four attributes the functions read. *)
Record Branch := mkBranch {
  name : string;
  nameWithoutRemote : string;
  type : BranchType;
  remote : option string
}.

(** Modelled from the spec: the [Repository] handle, of which only the
    filesystem path is read. *)
Record Repository := mkRepository { path : string }.

(** Modelled from the spec: the optional account, an identity bundle that is
    only handed on to the network collaborators. *)
Record IGitAccount := mkAccount { login : string; endpoint : string }.

(** The classified errors of dugite's [GitError] enumeration: the one the
    source names, the authentication failures the comments speak of, and the
    rest of the vocabulary under one constructor. *)
Inductive DugiteError :=
| SSHAuthenticationFailed
| SSHPermissionDenied
| HTTPSAuthenticationFailed
| PushNotFastForward
| BranchDeletionFailed
| DefaultBranchDeletionFailed
| OtherGitError (code : nat).

Definition DugiteError_code (e : DugiteError) : nat :=
  match e with
  | SSHAuthenticationFailed => 0
  | SSHPermissionDenied => 1
  | HTTPSAuthenticationFailed => 2
  | PushNotFastForward => 3
  | BranchDeletionFailed => 4
  | DefaultBranchDeletionFailed => 5
  | OtherGitError n => 6 + n
  end.

Definition DugiteError_of_code (n : nat) : DugiteError :=
  match n with
  | 0 => SSHAuthenticationFailed
  | 1 => SSHPermissionDenied
  | 2 => HTTPSAuthenticationFailed
  | 3 => PushNotFastForward
  | 4 => BranchDeletionFailed
  | 5 => DefaultBranchDeletionFailed
  | S (S (S (S (S (S m))))) => OtherGitError m
  end.

#[global] Instance BranchType_eq_dec : EqDecision BranchType.
Proof. solve_decision. Defined.

#[global] Instance DugiteError_eq_dec : EqDecision DugiteError.
Proof. solve_decision. Defined.

#[global] Program Instance DugiteError_countable : Countable DugiteError :=
  inj_countable' DugiteError_code DugiteError_of_code _.
Next Obligation. by intros []. Qed.

(** The environment of a child process. *)
Abbreviation Env := (gmap string string).

(** What the command gateway hands back: exit code, raw output and the
    classified error, when there is one. *)
Record IGitResult := mkResult {
  exitCode : Z;
  stdout : string;
  stderr : string;
  gitError : option DugiteError
}.

(** The options of a gateway call that the source sets. *)
Record IGitExecutionOptions := mkOptions {
  env : option Env;
  successExitCodes : option (gset Z);
  expectedErrors : option (gset DugiteError)
}.

Definition noOptions : IGitExecutionOptions :=
  {| env := None; successExitCodes := None; expectedErrors := None |}.

(** A thrown value: the gateway's [GitError], which carries the result and
    the arguments of the command, or any other [Error]. *)
Inductive JsError :=
| GitError (result : IGitResult) (args : list string)
| Error (message : string).

(** ** Promises, interactions and the world *)

(** A settled promise. *)
Inductive Outcome (A : Type) :=
| Resolved (a : A)
| Rejected (e : JsError).
Arguments Resolved {A} a.
Arguments Rejected {A} e.

(** One interaction with a collaborator, with the answer it gave. *)
Inductive Event :=
| EvGit (args : list string) (cwd label : string) (e : option Env)
        (answer : Outcome IGitResult)
| EvGetBranches (r : Repository) (pattern : string)
                (answer : Outcome (list Branch))
| EvDeleteRef (r : Repository) (ref : string) (answer : Outcome unit)
| EvGitNetworkArguments (r : Repository) (a : option IGitAccount)
                        (answer : Outcome (list string))
| EvGetRemoteURL (r : Repository) (remoteName : string)
                 (answer : Outcome (option string))
| EvEnvForRemoteOperation (a : option IGitAccount) (url : string)
                          (answer : Outcome Env)
| EvLogError (message : string) (err : JsError).

Abbreviation Trace := (list Event).

(** The collaborators.  Each answer may depend on everything that happened
    before (the history), so a world is any deterministic environment.
    [spawn] is the process run underneath the gateway; the two last fields
    are the synchronous helpers. *)
Record World := mkWorld {
  spawn : Trace -> list string -> string -> option Env -> Outcome IGitResult;
  answerGetBranches : Trace -> Repository -> string -> Outcome (list Branch);
  answerDeleteRef : Trace -> Repository -> string -> Outcome unit;
  answerGitNetworkArguments :
    Trace -> Repository -> option IGitAccount -> Outcome (list string);
  answerGetRemoteURL : Trace -> Repository -> string -> Outcome (option string);
  answerEnvForRemoteOperation :
    Trace -> option IGitAccount -> string -> Outcome Env;
  getFallbackUrlForProxyResolve : option IGitAccount -> Repository -> string;
  formatAsLocalRef : string -> string
}.

(** An asynchronous computation: given the history so far it settles and
    reports the interactions it made, oldest first. *)
Definition Async (A : Type) : Type := Trace -> Outcome A * Trace.

Definition ret {A} (a : A) : Async A := fun _ => (Resolved a, []).

Definition throw {A} (e : JsError) : Async A := fun _ => (Rejected e, []).

Definition bind {A B} (m : Async A) (k : A -> Async B) : Async B :=
  fun h =>
    match m h with
    | (Resolved a, es) =>
        let '(o, es') := k a (h ++ es) in (o, es ++ es')
    | (Rejected e, es) => (Rejected e, es)
    end.

(** [p.catch(handler)]. *)
Definition catch {A} (m : Async A) (handler : JsError -> Async A) : Async A :=
  fun h =>
    match m h with
    | (Rejected e, es) =>
        let '(o, es') := handler e (h ++ es) in (o, es ++ es')
    | settled => settled
    end.

(** Ask a collaborator and record the interaction. *)
Definition perform {A} (answer : Trace -> Outcome A)
    (record : Outcome A -> Event) : Async A :=
  fun h => let a := answer h in (a, [record a]).

(** A side effect that has no answer. *)
Definition emit (ev : Event) : Async unit := fun _ => (Resolved tt, [ev]).

Notation "'await' x <- m ;; k" := (bind m (fun x => k))
  (at level 10, x name, m at level 99, k at level 200,
   format "'[v' 'await'  x  <-  m  ;;  '/' k ']'").

(** The settled value and the interactions of a run. *)
Definition outcome {A} (m : Async A) (h : Trace) : Outcome A := fst (m h).
Definition events {A} (m : Async A) (h : Trace) : Trace := snd (m h).

(** Modelled from the spec: which results the command gateway does not treat
    as a failure.  The exit code is one the caller declared non-fatal (exit
    code 0 when the caller declared none), or the classified error is one
    the caller expects. *)
Definition acceptable (options : IGitExecutionOptions) (result : IGitResult)
    : bool :=
  let acceptableExitCode :=
    bool_decide (exitCode result ∈ default {[ 0%Z ]} (successExitCodes options)) in
  let acceptableError :=
    match gitError result, expectedErrors options with
    | Some e, Some expected => bool_decide (e ∈ expected)
    | _, _ => false
    end in
  acceptableExitCode || acceptableError.

(** ** The collaborators as asynchronous calls *)

Section Program.

Variable w : World.

(** Modelled from the spec: the command gateway [git] of ./core.  It runs
    the command and hands the result back when [acceptable] says so; every
    other result is thrown as a [GitError] that carries it unchanged. *)
Definition git (args : list string) (cwd label : string)
    (options : IGitExecutionOptions) : Async IGitResult :=
  await result <-
    perform (fun h => spawn w h args cwd (env options))
            (EvGit args cwd label (env options)) ;;
  if acceptable options result then ret result
  else throw (GitError result args).

Definition getBranches (repository : Repository) (pattern : string)
    : Async (list Branch) :=
  perform (fun h => answerGetBranches w h repository pattern)
          (EvGetBranches repository pattern).

Definition deleteRef (repository : Repository) (ref : string) : Async unit :=
  perform (fun h => answerDeleteRef w h repository ref)
          (EvDeleteRef repository ref).

Definition gitNetworkArguments (repository : Repository)
    (account : option IGitAccount) : Async (list string) :=
  perform (fun h => answerGitNetworkArguments w h repository account)
          (EvGitNetworkArguments repository account).

Definition getRemoteURL (repository : Repository) (remoteName : string)
    : Async (option string) :=
  perform (fun h => answerGetRemoteURL w h repository remoteName)
          (EvGetRemoteURL repository remoteName).

Definition envForRemoteOperation (account : option IGitAccount)
    (url : string) : Async Env :=
  perform (fun h => answerEnvForRemoteOperation w h account url)
          (EvEnvForRemoteOperation account url).

(** [log.error(message, err)]. *)
Definition logError (message : string) (err : JsError) : Async unit :=
  emit (EvLogError message err).

(** ** branch.ts *)

Definition createBranch (repository : Repository) (name : string)
    (startPoint : option string) : Async (option Branch) :=
  let args :=
    match startPoint with
    | Some sp => ["branch"; name; sp]
    | None => ["branch"; name]
    end in
  let args :=
    match startPoint with
    | Some sp =>
        if JS.startsWith sp "remotes/" then args ++ ["--no-track"] else args
    | None => args
    end in
  await _ <- git args (path repository) "createBranch" noOptions ;;
  await branches <- getBranches repository ("refs/heads/" +:+ name) ;;
  match branches with
  | first :: _ => ret (Some first)
  | [] => ret None
  end.

Definition deleteLocalBranch (repository : Repository) (branchName : string)
    : Async bool :=
  await _ <- git ["branch"; "-D"; branchName] (path repository)
                 "deleteLocalBranch" noOptions ;;
  ret true.

(** The arguments of the push that deletes the branch on the remote. *)
Definition pushArgs (networkArguments : list string) (remoteName : string)
    (branch : Branch) : list string :=
  networkArguments ++ ["push"; remoteName; ":" +:+ nameWithoutRemote branch].

(** The remote-tracking ref of the branch. *)
Definition trackingRef (remoteName : string) (branch : Branch) : string :=
  "refs/remotes/" +:+ remoteName +:+ "/" +:+ nameWithoutRemote branch.

Definition deleteBranch (repository : Repository) (branch : Branch)
    (account : option IGitAccount) (includeRemote : bool) : Async bool :=
  await _ <-
    (if decide (type branch = Local)
     then deleteLocalBranch repository (name branch)
     else ret true) ;;
  let remoteName := remote branch in
  await _ <-
    (if includeRemote && JS.truthy remoteName then
       (* here the source knows [remoteName] to be a string *)
       let remoteName := default EmptyString remoteName in
       await networkArguments <- gitNetworkArguments repository account ;;
       await resolved <-
         catch (getRemoteURL repository remoteName)
           (fun err =>
              await _ <-
                logError ("Could not resolve remote url for remote "
                          +:+ remoteName) err ;;
              ret None) ;;
       let remoteUrl :=
         JS.orElse resolved
           (getFallbackUrlForProxyResolve w account repository) in
       let args := pushArgs networkArguments remoteName branch in
       await e <- envForRemoteOperation account remoteUrl ;;
       await result <-
         git args (path repository) "deleteRemoteBranch"
           {| env := Some e;
              successExitCodes := None;
              expectedErrors := Some {[ BranchDeletionFailed ]} |} ;;
       if decide (gitError result = Some BranchDeletionFailed)
       then deleteRef repository (trackingRef remoteName branch)
       else ret tt
     else ret tt) ;;
  ret true.

Definition getBranchesPointedAt (repository : Repository) (commitish : string)
    : Async (option (list string)) :=
  let args :=
    ["branch"; "--points-at=" +:+ commitish; "--format=%(refname:short)"] in
  await result <-
    git args (path repository) "branchPointedAt"
      {| env := None;
         successExitCodes := Some {[ 0%Z; 1%Z; 129%Z ]};
         expectedErrors := None |} ;;
  if (exitCode result =? 1)%Z || (exitCode result =? 129)%Z then ret None
  else ret (Some (JS.slice (JS.split JS.LF (stdout result)) 0 (-1))).

(** One turn of the loop over the lines of the merged-branch listing. *)
Definition mergedBranchesStep (canonicalBranchRef : string)
    (mergedBranches : gmap string string) (line : string)
    : gmap string string :=
  match JS.destructure2 (JS.split JS.NUL line) with
  | (Some sha, Some canonicalRef) =>
      if String.eqb canonicalRef canonicalBranchRef then mergedBranches
      else <[ canonicalRef := sha ]> mergedBranches
  | _ => mergedBranches
  end.

(** The parsing half of [getMergedBranches], from [stdout] on. *)
Definition parseMergedBranches (canonicalBranchRef : string) (out : string)
    : gmap string string :=
  let lines := JS.split JS.LF out in
  let lines := JS.splice lines (-1) 1 in
  fold_left (mergedBranchesStep canonicalBranchRef) lines ∅.

Definition getMergedBranches (repository : Repository) (branchName : string)
    : Async (gmap string string) :=
  let canonicalBranchRef := formatAsLocalRef w branchName in
  let args :=
    ["branch"; "--format=%(objectname)%00%(refname)"; "--merged"; branchName] in
  await result <- git args (path repository) "mergedBranches" noOptions ;;
  ret (parseMergedBranches canonicalBranchRef (stdout result)).

End Program.

(** ** Vocabulary of the statements *)

(** The error a gateway interaction leaves its caller with when it fails:
    the rejection of the process run, or the [GitError] built from the
    result and the arguments. *)
Definition thrownBy (args : list string) (answer : Outcome IGitResult)
    : JsError :=
  match answer with
  | Rejected e => e
  | Resolved result => GitError result args
  end.

(** A command that failed for another reason than the classified error
    [expected]: it could not be run, or it ended with a non-zero exit code
    and a different classification (or none). *)
Definition failsOtherThan (expected : DugiteError)
    (answer : Outcome IGitResult) : Prop :=
  match answer with
  | Rejected _ => True
  | Resolved result =>
      exitCode result ≠ 0%Z ∧ gitError result ≠ Some expected
  end.

(** [err] is the error the interaction [ev] leaves its caller with when it
    fails: for a gateway call the error of [thrownBy], for the other
    collaborators their rejection. *)
Definition failedWith (ev : Event) (err : JsError) : Prop :=
  match ev with
  | EvGit args _ _ _ answer => err = thrownBy args answer
  | EvGetBranches _ _ (Rejected e)
  | EvDeleteRef _ _ (Rejected e)
  | EvGitNetworkArguments _ _ (Rejected e)
  | EvGetRemoteURL _ _ (Rejected e)
  | EvEnvForRemoteOperation _ _ (Rejected e) => err = e
  | _ => False
  end.

(** ** Concrete worlds *)

(** Modelled from the spec: [formatAsLocalRef] of ./refs, the canonical
    local ref [refs/heads/<name>] of a branch name. *)
Definition localRefOf (name : string) : string := "refs/heads/" +:+ name.

(** A world that answers from a script: [commands] decides every process
    run from its arguments, [url] is the answer of the URL resolution and
    [unref] the answer of the ref deletion; nothing else fails. *)
Definition scripted (commands : list string -> Outcome IGitResult)
    (url : Outcome (option string)) (unref : Outcome unit) : World :=
  {| spawn := fun _ args _ _ => commands args;
     answerGetBranches := fun _ _ _ => Resolved [];
     answerDeleteRef := fun _ _ _ => unref;
     answerGitNetworkArguments := fun _ _ _ => Resolved ["-c"; "credential.helper="];
     answerGetRemoteURL := fun _ _ _ => url;
     answerEnvForRemoteOperation := fun _ _ _ => Resolved ∅;
     getFallbackUrlForProxyResolve := fun _ _ => "https://github.com";
     formatAsLocalRef := localRefOf |}.

(** A command that succeeds and prints [out]. *)
Definition printed (out : string) : IGitResult :=
  {| exitCode := 0; stdout := out; stderr := EmptyString; gitError := None |}.

(** A command that ends with exit code [code] and prints nothing. *)
Definition exited (code : Z) : IGitResult :=
  {| exitCode := code; stdout := EmptyString; stderr := EmptyString; gitError := None |}.

(** The push of a branch the remote no longer has. *)
Definition alreadyGone : IGitResult :=
  {| exitCode := 1; stdout := EmptyString;
     stderr := "error: unable to delete 'feature': remote ref does not exist";
     gitError := Some BranchDeletionFailed |}.

(** The push of a user who is not authenticated. *)
Definition notAuthenticated : IGitResult :=
  {| exitCode := 128; stdout := EmptyString;
     stderr := "fatal: Authentication failed";
     gitError := Some HTTPSAuthenticationFailed |}.

(** Pushes answer [push], every other command succeeds silently. *)
Definition pushAnswers (push : IGitResult) (args : list string)
    : Outcome IGitResult :=
  if bool_decide ("push" ∈ args) then Resolved push
  else Resolved (printed EmptyString).

Definition theRepository : Repository := {| path := "/home/user/project" |}.

(** A local branch that tracks [origin/feature]. *)
Definition featureBranch : Branch :=
  {| name := "feature"; nameWithoutRemote := "feature";
     type := Local; remote := Some "origin" |}.

(** The remote-tracking branch [origin/feature] itself. *)
Definition originFeature : Branch :=
  {| name := "origin/feature"; nameWithoutRemote := "feature";
     type := Remote; remote := Some "origin" |}.

(** A remote-tracking branch handed over without a remote. *)
Definition detachedRemote : Branch :=
  {| name := "origin/feature"; nameWithoutRemote := "feature";
     type := Remote; remote := None |}.

(** Line feed and NUL as one-character strings. *)
Definition lf : string := String JS.LF EmptyString.
Definition nul : string := String JS.NUL EmptyString.

(** The merged-branch listing of two branches [x] and [y]. *)
Definition listingOfXY (sha1 sha2 : string) : string :=
  sha1 +:+ nul +:+ "refs/heads/x" +:+ lf +:+
  sha2 +:+ nul +:+ "refs/heads/y" +:+ lf.

(** The remote no longer has the branch; the ref deletion succeeds. *)
Definition goneWorld : World :=
  scripted (pushAnswers alreadyGone)
           (Resolved (Some "https://github.com/user/project.git"))
           (Resolved tt).

(** The remote no longer has the branch, and the ref deletion fails. *)
Definition refLockedWorld : World :=
  scripted (pushAnswers alreadyGone)
           (Resolved (Some "https://github.com/user/project.git"))
           (Rejected (Error "cannot lock ref")).

(** The push is refused for lack of authentication. *)
Definition deniedWorld : World :=
  scripted (pushAnswers notAuthenticated)
           (Resolved (Some "https://github.com/user/project.git"))
           (Resolved tt).

(** The URL of the remote cannot be resolved; the push succeeds. *)
Definition noUrlWorld : World :=
  scripted (pushAnswers (printed EmptyString))
           (Rejected (Error "No such remote 'origin'"))
           (Resolved tt).

(** Every command succeeds and prints [out]. *)
Definition printingWorld (out : string) : World :=
  scripted (fun _ => Resolved (printed out)) (Resolved None) (Resolved tt).

(** Every command ends with exit code [code]. *)
Definition exitingWorld (code : Z) : World :=
  scripted (fun _ => Resolved (exited code)) (Resolved None) (Resolved tt).

(** The arguments of the push in the scripted worlds. *)
Definition thePush : list string :=
  ["-c"; "credential.helper="; "push"; "origin"; ":feature"].

(** The arguments of the points-at listing for [HEAD]. *)
Definition pointsAtHead : list string :=
  ["branch"; "--points-at=HEAD"; "--format=%(refname:short)"].

(** The arguments of the merged-branch listing for [branchName]. *)
Definition mergedInto (branchName : string) : list string :=
  ["branch"; "--format=%(objectname)%00%(refname)"; "--merged"; branchName].

(** ** renameBranch *)

Section Rename.

Variable w : World.

Definition renameBranch (repository : Repository) (branch : Branch)
    (newName : string) : Async unit :=
  await _ <-
    git w ["branch"; "-m"; nameWithoutRemote branch; newName]
        (path repository) "renameBranch" noOptions ;;
  ret tt.

End Rename.

(** ** More vocabulary *)

(** A command run that its caller, having declared nothing, is not handed
    back: it could not be run or it ended with a non-zero exit code. *)
Definition failed (answer : Outcome IGitResult) : Prop :=
  match answer with
  | Rejected _ => True
  | Resolved result => exitCode result ≠ 0%Z
  end.

(** The error a collaborator rejected with, when it did. *)
Definition rejection (ev : Event) : option JsError :=
  match ev with
  | EvGit _ _ _ _ (Rejected e)
  | EvGetBranches _ _ (Rejected e)
  | EvDeleteRef _ _ (Rejected e)
  | EvGitNetworkArguments _ _ (Rejected e)
  | EvGetRemoteURL _ _ (Rejected e)
  | EvEnvForRemoteOperation _ _ (Rejected e) => Some e
  | _ => None
  end.

(** The place of an interaction in the text of [deleteBranch]: the local
    deletion, the network arguments, the URL, the log entry, the
    environment, the push, the deletion of the tracking ref. *)
Definition stage (ev : Event) : nat :=
  match ev with
  | EvGit _ _ label _ _ =>
      if String.eqb label "deleteLocalBranch" then 0 else 5
  | EvGitNetworkArguments _ _ _ => 1
  | EvGetRemoteURL _ _ _ => 2
  | EvLogError _ _ => 3
  | EvEnvForRemoteOperation _ _ _ => 4
  | EvDeleteRef _ _ _ => 6
  | EvGetBranches _ _ _ => 7
  end.

(** A record of the merged-branch listing as the format
    [%(objectname)%00%(refname)] prints it, from the pair of the commit id
    and the canonical ref. *)
Definition mergedRecord (entry : string * string) : string :=
  entry.1 +:+ String JS.NUL entry.2.

(** The text is free of both separators of the merged-branch listing. *)
Definition plain (s : string) : Prop :=
  freeOf JS.LF s = true ∧ freeOf JS.NUL s = true.


(** The URL resolution answers [url]; the environment cannot be resolved. *)
Definition noEnvWorld (url : option string) : World :=
  {| spawn := fun _ _ _ _ => Resolved (printed EmptyString);
     answerGetBranches := fun _ _ _ => Resolved [];
     answerDeleteRef := fun _ _ _ => Resolved tt;
     answerGitNetworkArguments := fun _ _ _ => Resolved [];
     answerGetRemoteURL := fun _ _ _ => Resolved url;
     answerEnvForRemoteOperation :=
       fun _ _ _ => Rejected (Error "no credentials");
     getFallbackUrlForProxyResolve := fun _ _ => "https://github.com";
     formatAsLocalRef := localRefOf |}.

(** How many times the character [c] occurs in a text. *)
Fixpoint occurrences (c : ascii) (s : string) : nat :=
  match s with
  | EmptyString => 0
  | String d rest => (if Ascii.eqb d c then 1 else 0) + occurrences c rest
  end.

(** ** Facts about the JavaScript primitives *)

Section Primitives.

Lemma split_nonempty sep s : JS.split sep s ≠ [].
Proof.
  destruct s as [|c s]; simpl; [done|].
  destruct (Ascii.eqb c sep); [done|].
  by destruct (JS.split sep s).
Qed.

(** The first position of a split is always there, so of the two fields
    of a line only the second can be missing. *)
Lemma destructure2_split_first sep line :
  is_Some (JS.destructure2 (JS.split sep line)).1.
Proof.
  pose proof (split_nonempty sep line) as Hne.
  destruct (JS.split sep line) as [|first rest]; [done|]. by eexists.
Qed.

Lemma split_free sep s : freeOf sep s = true → JS.split sep s = [s].
Proof.
  induction s as [|c s IH]; simpl; [done|].
  intros [Hc Hs]%andb_true_iff.
  apply negb_true_iff in Hc. rewrite Hc, (IH Hs). done.
Qed.

Lemma append_cons c (a b : string) : String c a +:+ b = String c (a +:+ b).
Proof. reflexivity. Qed.

Lemma append_nil (b : string) : EmptyString +:+ b = b.
Proof. reflexivity. Qed.

Lemma split_app_sep sep a b :
  freeOf sep a = true →
  JS.split sep (a +:+ String sep b) = a :: JS.split sep b.
Proof.
  induction a as [|c a IH].
  - intros _. rewrite append_nil. simpl. by rewrite Ascii.eqb_refl.
  - intros [Hc Ha]%andb_true_iff. rewrite append_cons. simpl.
    apply negb_true_iff in Hc. rewrite Hc, (IH Ha). done.
Qed.

Lemma append_assoc (a b c : string) : (a +:+ b) +:+ c = a +:+ (b +:+ c).
Proof. induction a as [|x a IH]; [done|]. rewrite !append_cons. by f_equal. Qed.

Lemma split_unlines ls tail :
  Forall (λ l, freeOf JS.LF l = true) ls →
  freeOf JS.LF tail = true →
  JS.split JS.LF (unlines ls +:+ tail) = ls ++ [tail].
Proof.
  intros Hls Htail. induction Hls as [|l ls Hl _ IH]; simpl.
  - by apply split_free.
  - rewrite append_assoc, append_cons.
    rewrite (split_app_sep _ _ _ Hl), IH. done.
Qed.

Lemma take_pred_length {A} (l : list A) :
  take (length l - 1) l = removelast l.
Proof.
  induction l as [|x l IH]; [done|].
  destruct l as [|y l]; [done|].
  change (removelast (x :: y :: l)) with (x :: removelast (y :: l)).
  rewrite <- IH.
  replace (length (x :: y :: l) - 1) with (S (length (y :: l) - 1))
    by (simpl; lia).
  done.
Qed.

(** [l.slice(0, -1)] is [l] without its last element. *)
Lemma slice_all_but_last {A} (l : list A) : JS.slice l 0 (-1) = removelast l.
Proof.
  unfold JS.slice, JS.relIndex. simpl.
  replace (Z.to_nat (Z.max (Z.of_nat (length l) + -1) 0)) with (length l - 1)
    by lia.
  replace (Z.to_nat (Z.min 0 (Z.of_nat (length l)))) with 0 by lia.
  rewrite Nat.sub_0_r. apply take_pred_length.
Qed.

(** [l.splice(-1, 1)] leaves [l] without its last element. *)
Lemma splice_last {A} (l : list A) : JS.splice l (-1) 1 = removelast l.
Proof.
  unfold JS.splice, JS.relIndex. simpl.
  replace (Z.to_nat (Z.max (Z.of_nat (length l) + -1) 0)) with (length l - 1)
    by lia.
  rewrite take_pred_length.
  rewrite drop_ge; [by rewrite app_nil_r|].
  destruct l; simpl; lia.
Qed.

End Primitives.

(** ** Text without a separator *)

Section FreeOf.

Lemma freeOf_app c (a b : string) :
  freeOf c (a +:+ b) = freeOf c a && freeOf c b.
Proof.
  induction a as [|x a IH]; [done|].
  rewrite append_cons. simpl. rewrite IH. by rewrite andb_assoc.
Qed.

End FreeOf.

(** ** The command gateway *)

Section Gateway.

Variable w : World.

(** A gateway call is one process run; what the caller gets is decided by
    [acceptable]. *)
Lemma git_run args cwd label options h :
  git w args cwd label options h =
    let answer := spawn w h args cwd (env options) in
    (match answer with
     | Resolved result =>
         if acceptable options result then Resolved result
         else Rejected (GitError result args)
     | Rejected err => Rejected err
     end,
     [EvGit args cwd label (env options) answer]).
Proof.
  unfold git, bind, perform, ret, throw. cbn zeta.
  destruct (spawn w h args cwd (env options)) as [result|err]; [|done].
  by destruct (acceptable options result).
Qed.

Lemma acceptable_expected options result err expected :
  gitError result = Some err →
  expectedErrors options = Some expected →
  err ∈ expected →
  acceptable options result = true.
Proof.
  intros Herr Hexp Hin. unfold acceptable. rewrite Herr, Hexp.
  rewrite (bool_decide_true (err ∈ expected)) by done.
  apply orb_true_r.
Qed.

Lemma acceptable_neither options result expected :
  successExitCodes options = None →
  expectedErrors options = Some {[ expected ]} →
  exitCode result ≠ 0%Z →
  gitError result ≠ Some expected →
  acceptable options result = false.
Proof.
  intros Hcodes Hexp Hcode Herr. unfold acceptable.
  rewrite Hcodes, Hexp. cbn.
  rewrite bool_decide_false by set_solver.
  destruct (gitError result) as [err|]; [|done].
  rewrite bool_decide_false; [done|]. set_solver.
Qed.

Lemma acceptable_listed codes result :
  acceptable {| env := None; successExitCodes := Some codes;
                expectedErrors := None |} result
  = bool_decide (exitCode result ∈ codes).
Proof.
  unfold acceptable. cbn. destruct (gitError result); apply orb_false_r.
Qed.

End Gateway.

(** ** getBranchesPointedAt *)

Section PointedAt.

Variable w : World.

Lemma elem_of_listed_codes (code : Z) :
  code ∈ ({[ 0%Z; 1%Z; 129%Z ]} : gset Z)
  ↔ code = 0%Z ∨ code = 1%Z ∨ code = 129%Z.
Proof. rewrite !elem_of_union, !elem_of_singleton. tauto. Qed.

(** The whole run: one gateway call that declares the exit codes 0, 1 and
    129 non-fatal, then a decision on the exit code. *)
Lemma getBranchesPointedAt_run repository commitish h :
  getBranchesPointedAt w repository commitish h =
    let args :=
      ["branch"; "--points-at=" +:+ commitish; "--format=%(refname:short)"] in
    let answer := spawn w h args (path repository) None in
    (match answer with
     | Resolved result =>
         if bool_decide (exitCode result ∈ ({[ 0%Z; 1%Z; 129%Z ]} : gset Z))
         then if (exitCode result =? 1)%Z || (exitCode result =? 129)%Z
              then Resolved None
              else Resolved
                     (Some (JS.slice (JS.split JS.LF (stdout result)) 0 (-1)))
         else Rejected (GitError result args)
     | Rejected err => Rejected err
     end,
     [EvGit args (path repository) "branchPointedAt" None answer]).
Proof.
  unfold getBranchesPointedAt, bind. rewrite git_run. cbn zeta. cbn [env].
  destruct (spawn w h _ (path repository) None) as [result|err]; [|done].
  rewrite acceptable_listed. case_bool_decide; [|done].
  unfold ret. by destruct (_ || _); rewrite app_nil_r.
Qed.

End PointedAt.

(** C3: when the listing command of [getBranchesPointedAt] ends with exit
    code 1 or 129 the result is null, which is not the empty sequence; with
    exit code 0 the result is the sequence of the branch short-names the
    command printed, one per line feed of its output; with any other exit
    code the call rejects with the gateway's error, which carries the
    result. *)
Theorem getBranchesPointedAt_exit_codes w repository commitish h
    args cwd label e result :
  EvGit args cwd label e (Resolved result)
    ∈ events (getBranchesPointedAt w repository commitish) h →
  let settled := outcome (getBranchesPointedAt w repository commitish) h in
  (exitCode result = 1%Z ∨ exitCode result = 129%Z →
     settled = Resolved None ∧ settled ≠ Resolved (Some []))
  ∧ (exitCode result = 0%Z →
     settled
     = Resolved (Some (removelast (JS.split JS.LF (stdout result)))))
  ∧ (exitCode result ≠ 0%Z → exitCode result ≠ 1%Z →
     exitCode result ≠ 129%Z →
     settled = Rejected (GitError result args)).
Proof.
  unfold events, outcome. rewrite getBranchesPointedAt_run. cbn [fst snd].
  intros Hev. apply list_elem_of_singleton in Hev.
  injection Hev as <- _ _ _ Hanswer. rewrite <- Hanswer. clear Hanswer.
  split; [|split].
  - intros Hcode.
    rewrite bool_decide_true by (apply elem_of_listed_codes; tauto).
    replace ((exitCode result =? 1)%Z || (exitCode result =? 129)%Z)
      with true by (destruct Hcode as [-> | ->]; done).
    done.
  - intros Hcode. rewrite Hcode.
    rewrite bool_decide_true by (apply elem_of_listed_codes; tauto).
    cbn [Z.eqb orb]. by rewrite slice_all_but_last.
  - intros H0 H1 H129. rewrite bool_decide_false; [done|].
    rewrite elem_of_listed_codes. tauto.
Qed.

(** C9: on exit code 0 [getBranchesPointedAt] returns the pieces of stdout
    between line feeds without the last piece, whatever that piece is: the
    empty output gives the empty list, and an output made of terminated
    lines followed by a last piece gives the terminated lines only, so a
    last line that lacks its line feed is dropped. *)
Theorem getBranchesPointedAt_drops_last_piece w repository commitish h
    args cwd label e result :
  EvGit args cwd label e (Resolved result)
    ∈ events (getBranchesPointedAt w repository commitish) h →
  exitCode result = 0%Z →
  let settled := outcome (getBranchesPointedAt w repository commitish) h in
  settled = Resolved (Some (removelast (JS.split JS.LF (stdout result))))
  ∧ (stdout result = EmptyString → settled = Resolved (Some []))
  ∧ (∀ terminated lastPiece,
       Forall (λ l, freeOf JS.LF l = true) terminated →
       freeOf JS.LF lastPiece = true →
       stdout result = unlines terminated +:+ lastPiece →
       settled = Resolved (Some terminated)).
Proof.
  unfold events, outcome. rewrite getBranchesPointedAt_run. cbn [fst snd].
  intros Hev Hcode. apply list_elem_of_singleton in Hev.
  injection Hev as _ _ _ _ Hanswer. rewrite <- Hanswer. clear Hanswer.
  rewrite Hcode.
  rewrite bool_decide_true by (apply elem_of_listed_codes; tauto).
  cbn [Z.eqb orb]. rewrite slice_all_but_last.
  split; [done|]. split.
  - by intros ->.
  - intros terminated lastPiece Hfree Hlast ->.
    by rewrite split_unlines, removelast_last.
Qed.

(** ** getMergedBranches *)

Section Merged.

Variable w : World.

Lemma getMergedBranches_run repository branchName h :
  getMergedBranches w repository branchName h =
    let args :=
      ["branch"; "--format=%(objectname)%00%(refname)"; "--merged";
       branchName] in
    let answer := spawn w h args (path repository) None in
    (match answer with
     | Resolved result =>
         if bool_decide (exitCode result = 0%Z)
         then Resolved (parseMergedBranches
                          (formatAsLocalRef w branchName) (stdout result))
         else Rejected (GitError result args)
     | Rejected err => Rejected err
     end,
     [EvGit args (path repository) "mergedBranches" None answer]).
Proof.
  unfold getMergedBranches, bind. rewrite git_run. cbn zeta. cbn [env noOptions].
  destruct (spawn w h _ (path repository) None) as [result|err]; [|done].
  replace (acceptable noOptions result)
    with (bool_decide (exitCode result = 0%Z)).
  - by case_bool_decide.
  - unfold acceptable. cbn. destruct (gitError result);
      rewrite orb_false_r; apply bool_decide_ext; set_solver.
Qed.

(** The loop never stores the excluded ref. *)
Lemma mergedBranchesStep_excludes canonical merged line :
  merged !! canonical = None →
  mergedBranchesStep canonical merged line !! canonical = None.
Proof.
  intros Hnone. unfold mergedBranchesStep.
  destruct (JS.destructure2 _) as [[sha|] [canonicalRef|]]; try done.
  destruct (String.eqb_spec canonicalRef canonical) as [->|Hne]; [done|].
  by rewrite lookup_insert_ne.
Qed.

Lemma fold_mergedBranchesStep_excludes canonical lines merged :
  merged !! canonical = None →
  fold_left (mergedBranchesStep canonical) lines merged !! canonical = None.
Proof.
  revert merged. induction lines as [|line lines IH]; intros merged Hnone.
  - done.
  - simpl. apply IH. by apply mergedBranchesStep_excludes.
Qed.

Lemma parseMergedBranches_excludes canonical out :
  parseMergedBranches canonical out !! canonical = None.
Proof.
  unfold parseMergedBranches. by apply fold_mergedBranchesStep_excludes.
Qed.

(** A line with a missing field leaves the map as it is. *)
Lemma mergedBranchesStep_malformed canonical merged line :
  (JS.destructure2 (JS.split JS.NUL line)).1 = None
  ∨ (JS.destructure2 (JS.split JS.NUL line)).2 = None →
  mergedBranchesStep canonical merged line = merged.
Proof.
  unfold mergedBranchesStep.
  destruct (JS.destructure2 _) as [[sha|] [canonicalRef|]]; cbn; try done.
  by intros [?|?].
Qed.

(** A well-formed line of another branch is stored. *)
Lemma mergedBranchesStep_entry canonical merged sha canonicalRef :
  freeOf JS.NUL sha = true →
  freeOf JS.NUL canonicalRef = true →
  canonicalRef ≠ canonical →
  mergedBranchesStep canonical merged (sha +:+ String JS.NUL canonicalRef)
  = <[ canonicalRef := sha ]> merged.
Proof.
  intros Hsha Href Hne. unfold mergedBranchesStep.
  rewrite (split_app_sep _ _ _ Hsha), (split_free _ _ Href).
  cbn [JS.destructure2 lookup list_lookup].
  by destruct (String.eqb_spec canonicalRef canonical).
Qed.

Lemma listingOfXY_lines sha1 sha2 :
  listingOfXY sha1 sha2
  = unlines [sha1 +:+ String JS.NUL "refs/heads/x";
             sha2 +:+ String JS.NUL "refs/heads/y"] +:+ EmptyString.
Proof.
  unfold listingOfXY, unlines, nul, lf.
  rewrite !append_assoc, !append_cons, !append_nil.
  rewrite !append_assoc, !append_cons, !append_nil.
  reflexivity.
Qed.

End Merged.

(** C4: the map [getMergedBranches] returns for a branch name has no entry
    under the canonical local ref of that name, which is what
    [formatAsLocalRef] makes of it. *)
Theorem getMergedBranches_excludes_base w repository branchName h merged :
  outcome (getMergedBranches w repository branchName) h = Resolved merged →
  merged !! formatAsLocalRef w branchName = None.
Proof.
  unfold outcome. rewrite getMergedBranches_run. cbn [fst].
  destruct (spawn w h _ (path repository) None) as [result|err]; [|done].
  case_bool_decide; [|done].
  intros [= <-]. apply parseMergedBranches_excludes.
Qed.

(** With [refs/heads/<name>] for the canonical local ref, the key
    [refs/heads/B] is absent from the map returned for [B]. *)
Lemma getMergedBranches_excludes_refs_heads w repository branchName h merged :
  formatAsLocalRef w = localRefOf →
  outcome (getMergedBranches w repository branchName) h = Resolved merged →
  merged !! ("refs/heads/" +:+ branchName) = None.
Proof.
  intros Hcanonical. unfold outcome. rewrite getMergedBranches_run. cbn [fst].
  destruct (spawn w h _ (path repository) None) as [result|err]; [|done].
  case_bool_decide; [|done].
  intros [= <-]. rewrite Hcanonical. apply parseMergedBranches_excludes.
Qed.

(** C6, as the code has it: when the merged-branch listing prints exactly
    [<sha1>\0refs/heads/x\n<sha2>\0refs/heads/y\n] and succeeds, and the
    branch compared against is neither [x] nor [y], [getMergedBranches]
    returns the map with the two entries [refs/heads/x -> sha1] and
    [refs/heads/y -> sha2]. *)
Theorem getMergedBranches_two_entries w repository branchName h
    args cwd label e result sha1 sha2 :
  freeOf JS.LF sha1 = true → freeOf JS.NUL sha1 = true →
  freeOf JS.LF sha2 = true → freeOf JS.NUL sha2 = true →
  EvGit args cwd label e (Resolved result)
    ∈ events (getMergedBranches w repository branchName) h →
  exitCode result = 0%Z →
  stdout result = listingOfXY sha1 sha2 →
  formatAsLocalRef w branchName ≠ "refs/heads/x" →
  formatAsLocalRef w branchName ≠ "refs/heads/y" →
  outcome (getMergedBranches w repository branchName) h
    = Resolved {[ "refs/heads/x" := sha1; "refs/heads/y" := sha2 ]}
  ∧ size ({[ "refs/heads/x" := sha1; "refs/heads/y" := sha2 ]}
            : gmap string string) = 2.
Proof.
  intros Hlf1 Hnul1 Hlf2 Hnul2 Hev Hcode Hout Hx Hy. split.
  - revert Hev. unfold events, outcome. rewrite getMergedBranches_run.
    cbn [fst snd]. intros Hev. apply list_elem_of_singleton in Hev.
    injection Hev as _ _ _ _ Hanswer. rewrite <- Hanswer. clear Hanswer.
    rewrite bool_decide_true by done. f_equal.
    unfold parseMergedBranches. rewrite Hout, listingOfXY_lines.
    rewrite split_unlines.
    + rewrite splice_last, removelast_last. cbn [fold_left].
      rewrite !mergedBranchesStep_entry by done.
      rewrite insert_empty. by apply insert_insert_ne.
    + repeat constructor; rewrite freeOf_app; by apply andb_true_iff.
    + done.
  - rewrite map_size_insert_None by by rewrite lookup_singleton_ne.
    by rewrite map_size_singleton.
Qed.

(** C7: a line of the merged-branch listing that lacks one of its two
    fields is skipped.  The result is the one the loop computes from the
    lines before and after it, so the line adds no entry, the lines that
    follow are still read, and the call resolves. *)
Theorem getMergedBranches_skips_malformed w repository branchName h
    args cwd label e result before line after :
  EvGit args cwd label e (Resolved result)
    ∈ events (getMergedBranches w repository branchName) h →
  exitCode result = 0%Z →
  JS.splice (JS.split JS.LF (stdout result)) (-1) 1 = before ++ line :: after →
  (JS.destructure2 (JS.split JS.NUL line)).1 = None
  ∨ (JS.destructure2 (JS.split JS.NUL line)).2 = None →
  outcome (getMergedBranches w repository branchName) h
    = Resolved (fold_left (mergedBranchesStep (formatAsLocalRef w branchName))
                          (before ++ after) ∅).
Proof.
  intros Hev Hcode Hlines Hbad. revert Hev.
  unfold events, outcome. rewrite getMergedBranches_run.
  cbn [fst snd]. intros Hev. apply list_elem_of_singleton in Hev.
  injection Hev as _ _ _ _ Hanswer. rewrite <- Hanswer. clear Hanswer.
  rewrite bool_decide_true by done. f_equal.
  unfold parseMergedBranches. rewrite Hlines.
  rewrite !fold_left_app. cbn [fold_left].
  by rewrite mergedBranchesStep_malformed.
Qed.

(** ** createBranch *)

(** C5: when the start point begins with [remotes/], the one command
    [createBranch] runs is [branch <name> <startPoint> --no-track]. *)
Theorem createBranch_remote_start_no_track w repository name startPoint h :
  JS.startsWith startPoint "remotes/" = true →
  (∃ answer,
     EvGit ["branch"; name; startPoint; "--no-track"] (path repository)
           "createBranch" None answer
       ∈ events (createBranch w repository name (Some startPoint)) h)
  ∧ (∀ args cwd label e answer,
       EvGit args cwd label e answer
         ∈ events (createBranch w repository name (Some startPoint)) h →
       args = ["branch"; name; startPoint; "--no-track"]
       ∧ "--no-track" ∈ args).
Proof.
  intros Hprefix. unfold events, createBranch, bind. rewrite Hprefix.
  rewrite git_run. cbn zeta. cbn [app env noOptions].
  assert (∀ a rest,
    (∀ ev, ev ∈ rest → ∃ r p b, ev = EvGetBranches r p b) →
    (∃ answer,
       EvGit ["branch"; name; startPoint; "--no-track"] (path repository)
             "createBranch" None answer
         ∈ EvGit ["branch"; name; startPoint; "--no-track"] (path repository)
             "createBranch" None a :: rest)
    ∧ (∀ args cwd label e answer,
         EvGit args cwd label e answer
           ∈ EvGit ["branch"; name; startPoint; "--no-track"]
               (path repository) "createBranch" None a :: rest →
         args = ["branch"; name; startPoint; "--no-track"]
         ∧ "--no-track" ∈ args)) as Hshape.
  { intros a rest Hrest. split; [exists a; apply list_elem_of_here|].
    intros args cwd label e answer [Heq|Hin]%elem_of_cons.
    - injection Heq as -> _ _ _ _. split; [done|].
      do 3 apply list_elem_of_further. apply list_elem_of_here.
    - destruct (Hrest _ Hin) as (r & p & b & Hev). discriminate Hev. }
  destruct (spawn w h _ (path repository) None) as [result|err].
  - destruct (acceptable noOptions result).
    + unfold getBranches, perform. cbn zeta.
      destruct (answerGetBranches w _ repository _) as [[|first rest]|err];
        cbn [snd app]; apply Hshape;
        intros ev Hev%list_elem_of_singleton; eauto.
    + cbn [snd]. apply Hshape. by intros ev Hev%elem_of_nil.
  - cbn [snd]. apply Hshape. by intros ev Hev%elem_of_nil.
Qed.

(** ** deleteBranch *)

(** Unfold a run down to the answers of the collaborators. *)
Ltac unfold_run :=
  unfold outcome, events, deleteBranch, deleteLocalBranch, git, deleteRef,
    gitNetworkArguments, getRemoteURL, envForRemoteOperation, logError,
    bind, catch, perform, emit, ret, throw;
  cbn [fst snd env noOptions].

(** Split on the next answer or decision the run depends on. *)
Ltac next_case :=
  match goal with
  | |- context [match ?x with _ => _ end] =>
      lazymatch x with
      | context [match _ with _ => _ end] => fail
      | _ => destruct x eqn:?; cbn [fst snd app]
      end
  end.

Ltac all_cases := repeat next_case.

(** The gateway cannot have thrown a result whose classified error the
    caller expects. *)
Ltac expected_not_thrown :=
  match goal with
  | Hthrown : acceptable ?options ?result = false,
    Hgone : gitError ?result = Some ?err |- _ =>
      rewrite (acceptable_expected options result err {[ err ]} Hgone eq_refl)
        in Hthrown by (apply elem_of_singleton; reflexivity);
      discriminate Hthrown
  end.

(** C1, as the code has it: when the push of [deleteBranch] ends with the
    classified error [BranchDeletionFailed], the last thing the call does is
    [deleteRef] on [refs/remotes/<remote>/<nameWithoutRemote>], and the call
    settles as that [deleteRef] does: it returns true when the ref deletion
    succeeds and rejects with the error of the ref deletion otherwise.  The
    failure of the push is not what the caller sees. *)
Theorem deleteBranch_reconciles w repository branch account h
    remoteName args cwd e result :
  remote branch = Some remoteName →
  EvGit args cwd "deleteRemoteBranch" e (Resolved result)
    ∈ events (deleteBranch w repository branch account true) h →
  gitError result = Some BranchDeletionFailed →
  ∃ answer,
    last (events (deleteBranch w repository branch account true) h)
      = Some (EvDeleteRef repository
                ("refs/remotes/" +:+ remoteName +:+ "/"
                 +:+ nameWithoutRemote branch)
                answer)
    ∧ outcome (deleteBranch w repository branch account true) h
      = match answer with
        | Resolved _ => Resolved true
        | Rejected err => Rejected err
        end.
Proof.
  intros Hremote Hpush Hgone. revert Hpush.
  unfold_run. rewrite Hremote. cbn [default andb].
  all_cases; intros; decompose_list_elem_of; simplify_eq/=;
    try done; try expected_not_thrown;
    (eexists; split; [reflexivity|done]).
Qed.

(** C2: when the push of [deleteBranch] fails for another reason than
    [BranchDeletionFailed], the call rejects with the very error the gateway
    raised for that push, and [deleteRef] is not called. *)
Theorem deleteBranch_push_failure_propagates w repository branch account h
    args cwd e answer :
  EvGit args cwd "deleteRemoteBranch" e answer
    ∈ events (deleteBranch w repository branch account true) h →
  failsOtherThan BranchDeletionFailed answer →
  outcome (deleteBranch w repository branch account true) h
    = Rejected (thrownBy args answer)
  ∧ ∀ r ref unref,
      EvDeleteRef r ref unref
        ∉ events (deleteBranch w repository branch account true) h.
Proof.
  intros Hpush Hfails. revert Hpush.
  unfold_run. destruct (remote branch) as [remoteName|]; cbn [default andb].
  - all_cases; intros; decompose_list_elem_of; simplify_eq/=; try done.
    all: try (split; [done|];
              intros r ref unref Hin; decompose_list_elem_of; done).
    all: destruct Hfails as [Hcode Herr]; try done.
    all: match goal with
         | Hok : acceptable ?options ?result = true |- _ =>
             rewrite (acceptable_neither options result BranchDeletionFailed
                        eq_refl eq_refl Hcode Herr) in Hok;
             discriminate Hok
         end.
  - all_cases; intros; decompose_list_elem_of; simplify_eq/=; done.
Qed.

(** C8: when the URL of the remote cannot be resolved during
    [deleteBranch], the failure is logged and the deletion goes on: the
    environment is resolved for the fallback URL computed from the account
    and the repository, and when it resolves the push is run with it and
    with the network arguments; a push that succeeds makes the call
    return true, and a push that ends with [BranchDeletionFailed] is
    followed by the deletion of the tracking ref, as the call settles.
    Whenever the call rejects, it does so with the error of the
    environment resolution or of a later step, never with that of the URL
    resolution. *)
Theorem deleteBranch_url_failure_bypassed w repository branch account h
    remoteName err :
  EvGetRemoteURL repository remoteName (Rejected err)
    ∈ events (deleteBranch w repository branch account true) h →
  ∃ i envAnswer,
    let run := events (deleteBranch w repository branch account true) h in
    run !! i = Some (EvGetRemoteURL repository remoteName (Rejected err))
    ∧ run !! (i + 1)
      = Some (EvLogError
                ("Could not resolve remote url for remote " +:+ remoteName)
                err)
    ∧ run !! (i + 2)
      = Some (EvEnvForRemoteOperation account
                (getFallbackUrlForProxyResolve w account repository)
                envAnswer)
    ∧ (∀ environment,
         envAnswer = Resolved environment →
         ∃ networkArguments pushAnswer,
           EvGitNetworkArguments repository account (Resolved networkArguments)
             ∈ run
           ∧ run !! (i + 3)
             = Some (EvGit (networkArguments
                            ++ ["push"; remoteName;
                                ":" +:+ nameWithoutRemote branch])
                           (path repository) "deleteRemoteBranch"
                           (Some environment) pushAnswer)
           ∧ (∀ result,
                pushAnswer = Resolved result →
                exitCode result = 0%Z →
                gitError result ≠ Some BranchDeletionFailed →
                outcome (deleteBranch w repository branch account true) h
                = Resolved true)
           ∧ (∀ result,
                pushAnswer = Resolved result →
                gitError result = Some BranchDeletionFailed →
                ∃ unref,
                  run !! (i + 4)
                  = Some (EvDeleteRef repository
                            ("refs/remotes/" +:+ remoteName +:+ "/"
                             +:+ nameWithoutRemote branch)
                            unref)
                  ∧ outcome (deleteBranch w repository branch account true) h
                    = match unref with
                      | Resolved _ => Resolved true
                      | Rejected err' => Rejected err'
                      end))
    ∧ ∀ err',
        outcome (deleteBranch w repository branch account true) h
          = Rejected err' →
        ∃ j ev, i + 2 ≤ j ∧ run !! j = Some ev ∧ failedWith ev err'.
Proof.
  intros Hurl. revert Hurl.
  unfold_run. destruct (remote branch) as [remoteName'|]; cbn [default andb].
  - all_cases; intros; decompose_list_elem_of; simplify_eq/=; try done.
    all: first
      [ exists 1; eexists; do 3 (split; [reflexivity|])
      | exists 2; eexists; do 3 (split; [reflexivity|]) ].
    all: split;
      [ intros environment [= <-];
        eexists _, _;
        (split; [repeat first [apply list_elem_of_here
                               | apply list_elem_of_further]|]);
        (split; [reflexivity|]);
        (split;
           [ intros result [= <-] Hcode Hclass
           | intros result [= <-] Hgone ])
      | intros err' [= <-] || intros err' [=] ].
    all: try done.
    all: try expected_not_thrown.
    all: try (eexists; split; [reflexivity|done]).
    all: try match goal with
         | Hbad : acceptable ?options ?result = false,
           Hcode : exitCode ?result = 0%Z |- _ =>
             unfold acceptable in Hbad; cbn in Hbad; rewrite Hcode in Hbad;
             rewrite bool_decide_true in Hbad by (by apply elem_of_singleton);
             discriminate Hbad
         end.
    all: first
      [ eexists 3, _; split; [lia|]; split; [reflexivity|]; by cbn
      | eexists 4, _; split; [lia|]; split; [reflexivity|]; by cbn
      | eexists 5, _; split; [lia|]; split; [reflexivity|]; by cbn
      | eexists 6, _; split; [lia|]; split; [reflexivity|]; by cbn ].
  - all_cases; intros; decompose_list_elem_of; simplify_eq/=; done.
Qed.

(** C10: when [includeRemote] is false or the branch has no remote (null,
    or the empty name), the only interaction [deleteBranch] can make is the
    local [branch -D] of a [Local] branch: network arguments are not
    resolved, nothing is pushed and no ref is deleted.  When, besides, the
    branch is not [Local], the call makes no interaction at all and returns
    true. *)
Theorem deleteBranch_without_remote w repository branch account
    includeRemote h :
  includeRemote = false ∨ JS.truthy (remote branch) = false →
  (∀ ev,
     ev ∈ events (deleteBranch w repository branch account includeRemote) h →
     type branch = Local
     ∧ ∃ answer,
         ev = EvGit ["branch"; "-D"; name branch] (path repository)
                "deleteLocalBranch" None answer)
  ∧ (type branch ≠ Local →
     events (deleteBranch w repository branch account includeRemote) h = []
     ∧ outcome (deleteBranch w repository branch account includeRemote) h
       = Resolved true).
Proof.
  intros Hskip.
  assert (includeRemote && JS.truthy (remote branch) = false) as Hcond.
  { destruct Hskip as [-> | ->]; [done|apply andb_false_r]. }
  unfold_run. rewrite Hcond.
  all_cases; (split; [intros ev Hev|intros Hremote]);
    decompose_list_elem_of; simplify_eq/=; eauto.
Qed.

(** ** The statements at concrete inputs *)

(** In [goneWorld] the push of [feature] ends with [BranchDeletionFailed],
    the tracking ref is deleted and the call returns true. *)
Lemma deleteBranch_reconciles_witness :
  outcome (deleteBranch goneWorld theRepository featureBranch None true) []
  = Resolved true.
Proof.
  destruct (deleteBranch_reconciles goneWorld theRepository featureBranch None
              [] "origin" thePush "/home/user/project" (Some ∅) alreadyGone)
    as (answer & Hlast & Hsettled).
  - reflexivity.
  - vm_compute. do 4 apply list_elem_of_further. apply list_elem_of_here.
  - reflexivity.
  - vm_compute in Hlast. injection Hlast as <-. exact Hsettled.
Defined.

(** C1 as it is worded does not hold: in [refLockedWorld] the push ends
    with [BranchDeletionFailed], [deleteRef] is called and fails, and the
    call rejects instead of returning true. *)
Lemma deleteBranch_ref_deletion_failure_surfaces :
  ¬ (∀ w repository branch account h remoteName args cwd e result,
       remote branch = Some remoteName →
       EvGit args cwd "deleteRemoteBranch" e (Resolved result)
         ∈ events (deleteBranch w repository branch account true) h →
       gitError result = Some BranchDeletionFailed →
       EvDeleteRef repository
         ("refs/remotes/" +:+ remoteName +:+ "/" +:+ nameWithoutRemote branch)
         (Resolved tt)
         ∈ events (deleteBranch w repository branch account true) h
       ∧ outcome (deleteBranch w repository branch account true) h
         = Resolved true).
Proof.
  intros Hclaim.
  destruct (Hclaim refLockedWorld theRepository featureBranch None []
              "origin" thePush "/home/user/project" (Some ∅) alreadyGone)
    as [_ Hsettled].
  - reflexivity.
  - vm_compute. do 4 apply list_elem_of_further. apply list_elem_of_here.
  - reflexivity.
  - vm_compute in Hsettled. discriminate Hsettled.
Qed.

(** In [deniedWorld] the authentication failure of the push reaches the
    caller as the gateway raised it. *)
Lemma deleteBranch_push_failure_propagates_witness :
  outcome (deleteBranch deniedWorld theRepository featureBranch None true) []
  = Rejected (GitError notAuthenticated thePush)
  ∧ EvDeleteRef theRepository "refs/remotes/origin/feature" (Resolved tt)
      ∉ events (deleteBranch deniedWorld theRepository featureBranch None true)
               [].
Proof.
  destruct (deleteBranch_push_failure_propagates deniedWorld theRepository
              featureBranch None [] thePush "/home/user/project" (Some ∅)
              (Resolved notAuthenticated))
    as [Hsettled Hnone].
  - vm_compute. do 4 apply list_elem_of_further. apply list_elem_of_here.
  - split; discriminate.
  - split; [exact Hsettled|apply Hnone].
Defined.

(** Exit code 1, exit code 0 with one name printed, and exit code 2 of
    the points-at listing. *)
Lemma getBranchesPointedAt_exit_codes_witness :
  outcome (getBranchesPointedAt (exitingWorld 1) theRepository "HEAD") []
  = Resolved None
  ∧ outcome (getBranchesPointedAt (printingWorld ("main" +:+ lf))
                                  theRepository "HEAD") []
    = Resolved (Some ["main"])
  ∧ outcome (getBranchesPointedAt (exitingWorld 2) theRepository "HEAD") []
    = Rejected (GitError (exited 2) pointsAtHead).
Proof.
  split; [|split].
  - apply (getBranchesPointedAt_exit_codes (exitingWorld 1) theRepository
             "HEAD" [] pointsAtHead "/home/user/project" "branchPointedAt"
             None (exited 1)).
    + vm_compute. apply list_elem_of_here.
    + left. reflexivity.
  - destruct (getBranchesPointedAt_exit_codes
                (printingWorld ("main" +:+ lf)) theRepository
                "HEAD" [] pointsAtHead "/home/user/project" "branchPointedAt"
                None (printed ("main" +:+ lf)))
      as (_ & Hzero & _).
    + vm_compute. apply list_elem_of_here.
    + exact (Hzero eq_refl).
  - apply (getBranchesPointedAt_exit_codes (exitingWorld 2) theRepository
             "HEAD" [] pointsAtHead "/home/user/project" "branchPointedAt"
             None (exited 2)).
    + vm_compute. apply list_elem_of_here.
    + discriminate.
    + discriminate.
    + discriminate.
Defined.

(** The listing of [x] and [y] read for [x]: no entry under
    [refs/heads/x]. *)
Lemma getMergedBranches_excludes_base_witness :
  ({[ "refs/heads/y" := "2e" ]} : gmap string string) !! "refs/heads/x" = None.
Proof.
  apply (getMergedBranches_excludes_base
           (printingWorld (listingOfXY "1f" "2e")) theRepository "x" []).
  vm_compute. reflexivity.
Defined.

(** Branching from [remotes/origin/main]. *)
Lemma createBranch_remote_start_no_track_witness :
  ∃ answer,
    EvGit ["branch"; "topic"; "remotes/origin/main"; "--no-track"]
          "/home/user/project" "createBranch" None answer
      ∈ events (createBranch (printingWorld EmptyString) theRepository "topic"
                             (Some "remotes/origin/main")) [].
Proof.
  apply (createBranch_remote_start_no_track (printingWorld EmptyString) theRepository
           "topic" "remotes/origin/main" []).
  reflexivity.
Defined.

(** The listing of [x] and [y] read for [main]. *)
Lemma getMergedBranches_two_entries_witness :
  outcome (getMergedBranches (printingWorld (listingOfXY "1f" "2e"))
                             theRepository "main") []
  = Resolved {[ "refs/heads/x" := "1f"; "refs/heads/y" := "2e" ]}.
Proof.
  apply (getMergedBranches_two_entries
           (printingWorld (listingOfXY "1f" "2e")) theRepository "main" []
           (mergedInto "main") "/home/user/project" "mergedBranches" None
           (printed (listingOfXY "1f" "2e")) "1f" "2e");
    try reflexivity; try discriminate.
  vm_compute. apply list_elem_of_here.
Defined.

(** C6 as it is worded does not hold: read for the branch [x], the same
    listing gives a map with the single entry of [y]. *)
Lemma getMergedBranches_listing_of_compared_branch :
  ¬ (∀ w repository branchName h args cwd label e result sha1 sha2,
       freeOf JS.LF sha1 = true → freeOf JS.NUL sha1 = true →
       freeOf JS.LF sha2 = true → freeOf JS.NUL sha2 = true →
       EvGit args cwd label e (Resolved result)
         ∈ events (getMergedBranches w repository branchName) h →
       exitCode result = 0%Z →
       stdout result = listingOfXY sha1 sha2 →
       outcome (getMergedBranches w repository branchName) h
       = Resolved {[ "refs/heads/x" := sha1; "refs/heads/y" := sha2 ]}).
Proof.
  intros Hclaim.
  specialize (Hclaim (printingWorld (listingOfXY "1f" "2e")) theRepository
                "x" [] (mergedInto "x") "/home/user/project"
                "mergedBranches" None (printed (listingOfXY "1f" "2e"))
                "1f" "2e" eq_refl eq_refl eq_refl eq_refl).
  assert (size ({[ "refs/heads/y" := "2e" ]} : gmap string string)
          = size ({[ "refs/heads/x" := "1f"; "refs/heads/y" := "2e" ]}
                   : gmap string string)) as Hsize.
  { f_equal.
    assert (∀ m m' : gmap string string,
              Resolved m = Resolved m' → m = m') as Hinj
      by (by intros m m' [= ->]).
    apply Hinj. rewrite <- Hclaim; [|vm_compute; apply list_elem_of_here|done..].
    vm_compute. reflexivity. }
  vm_compute in Hsize. discriminate Hsize.
Qed.

(** A listing with a line that has no NUL between two good lines. *)
Lemma getMergedBranches_skips_malformed_witness :
  outcome (getMergedBranches
             (printingWorld ("1f" +:+ nul +:+ "refs/heads/x" +:+ lf +:+
                             "not a record" +:+ lf +:+
                             "2e" +:+ nul +:+ "refs/heads/y" +:+ lf))
             theRepository "main") []
  = Resolved {[ "refs/heads/x" := "1f"; "refs/heads/y" := "2e" ]}.
Proof.
  etransitivity.
  - apply (getMergedBranches_skips_malformed _ theRepository "main" []
             (mergedInto "main") "/home/user/project" "mergedBranches" None
             (printed ("1f" +:+ nul +:+ "refs/heads/x" +:+ lf +:+
                       "not a record" +:+ lf +:+
                       "2e" +:+ nul +:+ "refs/heads/y" +:+ lf))
             ["1f" +:+ nul +:+ "refs/heads/x"] "not a record"
             ["2e" +:+ nul +:+ "refs/heads/y"]).
    + vm_compute. apply list_elem_of_here.
    + reflexivity.
    + reflexivity.
    + right. reflexivity.
  - vm_compute. reflexivity.
Defined.

(** In [noUrlWorld] the URL resolution fails, the failure is logged, the
    environment is resolved for the fallback URL, the push is run and the
    call returns true. *)
Lemma deleteBranch_url_failure_bypassed_witness :
  ∃ i envAnswer pushAnswer,
    let run :=
      events (deleteBranch noUrlWorld theRepository featureBranch None true)
             [] in
    run !! i = Some (EvGetRemoteURL theRepository "origin"
                       (Rejected (Error "No such remote 'origin'")))
    ∧ run !! (i + 1)
      = Some (EvLogError "Could not resolve remote url for remote origin"
                         (Error "No such remote 'origin'"))
    ∧ run !! (i + 2)
      = Some (EvEnvForRemoteOperation None "https://github.com" envAnswer)
    ∧ run !! (i + 3)
      = Some (EvGit thePush "/home/user/project" "deleteRemoteBranch"
                    (Some ∅) pushAnswer)
    ∧ outcome (deleteBranch noUrlWorld theRepository featureBranch None true)
              []
      = Resolved true.
Proof.
  destruct (deleteBranch_url_failure_bypassed noUrlWorld theRepository
              featureBranch None [] "origin" (Error "No such remote 'origin'"))
    as (i & envAnswer & Hurl & Hlog & Henv & Hpush & _).
  - vm_compute. do 2 apply list_elem_of_further. apply list_elem_of_here.
  - assert (i = 2) as ->.
    { vm_compute in Hurl.
      do 7 (destruct i as [|i]; [try discriminate Hurl; try reflexivity|]).
      discriminate Hurl. }
    assert (envAnswer = Resolved ∅) as ->
      by (vm_compute in Henv; injection Henv; intros; subst; reflexivity).
    destruct (Hpush ∅ eq_refl)
      as (networkArguments & pushAnswer & _ & Hrun & Hsettled & _).
    assert (pushAnswer = Resolved (printed EmptyString)) as ->
      by (vm_compute in Hrun; injection Hrun; intros; subst; reflexivity).
    exists 2, (Resolved ∅), (Resolved (printed EmptyString)).
    do 4 (split; [reflexivity|]).
    apply (Hsettled (printed EmptyString));
      [reflexivity|reflexivity|discriminate].
Defined.

(** Two lines of which the second lacks its line feed. *)
Lemma getBranchesPointedAt_drops_last_piece_witness :
  outcome (getBranchesPointedAt (printingWorld ("main" +:+ lf +:+ "topic"))
                                theRepository "HEAD") []
  = Resolved (Some ["main"]).
Proof.
  destruct (getBranchesPointedAt_drops_last_piece
              (printingWorld ("main" +:+ lf +:+ "topic")) theRepository "HEAD"
              [] pointsAtHead "/home/user/project" "branchPointedAt" None
              (printed ("main" +:+ lf +:+ "topic")))
    as (_ & _ & Hlines).
  - vm_compute. apply list_elem_of_here.
  - reflexivity.
  - apply (Hlines ["main"] "topic").
    + repeat constructor.
    + reflexivity.
    + reflexivity.
Defined.

(** A remote-tracking branch without a remote: nothing is run. *)
Lemma deleteBranch_without_remote_witness :
  events (deleteBranch goneWorld theRepository detachedRemote None true) [] = []
  ∧ outcome (deleteBranch goneWorld theRepository detachedRemote None true) []
    = Resolved true.
Proof.
  apply (deleteBranch_without_remote goneWorld theRepository detachedRemote
           None true []).
  - right. reflexivity.
  - discriminate.
Defined.

(** ** Commands run with no options *)

Section Defaults.

Variable w : World.

Lemma acceptable_noOptions result :
  acceptable noOptions result = bool_decide (exitCode result = 0%Z).
Proof.
  unfold acceptable. cbn. destruct (gitError result);
    rewrite orb_false_r; apply bool_decide_ext; apply elem_of_singleton.
Qed.

(** With no options the gateway throws exactly the runs that [failed]. *)
Lemma git_noOptions_run args cwd label h :
  ∃ answer,
    git w args cwd label noOptions h
    = (match answer with
       | Resolved result =>
           if bool_decide (exitCode result = 0%Z) then Resolved result
           else Rejected (thrownBy args answer)
       | Rejected err => Rejected (thrownBy args answer)
       end,
       [EvGit args cwd label None answer]).
Proof.
  exists (spawn w h args cwd None). rewrite git_run. cbn zeta. cbn [env noOptions].
  destruct (spawn w h args cwd None) as [result|err]; [|done].
  by rewrite acceptable_noOptions.
Qed.

End Defaults.

(** X1: [renameBranch] runs one command, [branch -m] from the name without
    the remote prefix to the new name, in the repository; it resolves when
    the command ends with exit code 0 and otherwise rejects with the error
    of the gateway. *)
Theorem renameBranch_one_command w repository branch newName h :
  ∃ answer,
    let args := ["branch"; "-m"; nameWithoutRemote branch; newName] in
    events (renameBranch w repository branch newName) h
    = [EvGit args (path repository) "renameBranch" None answer]
    ∧ ((failed answer
        ∧ outcome (renameBranch w repository branch newName) h
          = Rejected (thrownBy args answer))
       ∨ (¬ failed answer
          ∧ outcome (renameBranch w repository branch newName) h
            = Resolved tt)).
Proof.
  unfold events, outcome, renameBranch, bind.
  destruct (git_noOptions_run w
              ["branch"; "-m"; nameWithoutRemote branch; newName]
              (path repository) "renameBranch" h) as [answer ->].
  exists answer. destruct answer as [result|err]; cbn [fst snd].
  - case_bool_decide; cbn [fst snd ret app].
    + split; [done|]. right. split; [|done]. cbn. by intros ?.
    + split; [done|]. left. done.
  - split; [done|]. left. done.
Qed.

(** X2: [deleteLocalBranch] runs one command, the forced deletion
    [branch -D <name>], whatever the state of the branch; it returns true
    when the command ends with exit code 0 and otherwise rejects with the
    error of the gateway. *)
Theorem deleteLocalBranch_forces w repository branchName h :
  ∃ answer,
    let args := ["branch"; "-D"; branchName] in
    events (deleteLocalBranch w repository branchName) h
    = [EvGit args (path repository) "deleteLocalBranch" None answer]
    ∧ ((failed answer
        ∧ outcome (deleteLocalBranch w repository branchName) h
          = Rejected (thrownBy args answer))
       ∨ (¬ failed answer
          ∧ outcome (deleteLocalBranch w repository branchName) h
            = Resolved true)).
Proof.
  unfold events, outcome, deleteLocalBranch, bind.
  destruct (git_noOptions_run w ["branch"; "-D"; branchName]
              (path repository) "deleteLocalBranch" h) as [answer ->].
  exists answer. destruct answer as [result|err]; cbn [fst snd].
  - case_bool_decide; cbn [fst snd ret app].
    + split; [done|]. right. split; [|done]. cbn. by intros ?.
    + split; [done|]. left. done.
  - split; [done|]. left. done.
Qed.

(** ** createBranch, the other paths *)

(** X11: when there is no start point, or one that does not begin with
    [remotes/], the command [createBranch] runs is [branch <name>] followed
    by the start point if there is one, and nothing else: no [--no-track]
    is added. *)
Theorem createBranch_plain_start w repository name startPoint h :
  (∀ sp, startPoint = Some sp → JS.startsWith sp "remotes/" = false) →
  ∃ answer,
    events (createBranch w repository name startPoint) h !! 0
    = Some (EvGit ("branch" :: name :: option_list startPoint)
                  (path repository) "createBranch" None answer).
Proof.
  intros Hplain. unfold events, createBranch, bind.
  destruct startPoint as [sp|].
  - rewrite (Hplain sp eq_refl).
    destruct (git_noOptions_run w ["branch"; name; sp] (path repository)
                "createBranch" h) as [answer ->].
    exists answer. destruct answer as [result|err]; [|done].
    case_bool_decide; [|done].
    unfold getBranches, perform. cbn zeta.
    by destruct (answerGetBranches w _ repository _) as [[|b bs]|err].
  - destruct (git_noOptions_run w ["branch"; name] (path repository)
                "createBranch" h) as [answer ->].
    exists answer. destruct answer as [result|err]; [|done].
    case_bool_decide; [|done].
    unfold getBranches, perform. cbn zeta.
    by destruct (answerGetBranches w _ repository _) as [[|b bs]|err].
Qed.


(** X13: when the creation command fails, [createBranch] rejects with the
    error of the gateway and does not look the branch up. *)
Theorem createBranch_failure_skips_lookup w repository name startPoint h
    args cwd label e answer :
  EvGit args cwd label e answer
    ∈ events (createBranch w repository name startPoint) h →
  failed answer →
  outcome (createBranch w repository name startPoint) h
  = Rejected (thrownBy args answer)
  ∧ events (createBranch w repository name startPoint) h
    = [EvGit args cwd label e answer].
Proof.
  unfold events, outcome, createBranch, bind.
  match goal with
  | |- context [git w ?a _ _ _ _] =>
      destruct (git_noOptions_run w a (path repository) "createBranch" h)
        as [first ->]
  end.
  destruct first as [result|err]; cbn [fst snd].
  - case_bool_decide; cbn [fst snd].
    + unfold getBranches, perform. cbn zeta.
      destruct (answerGetBranches w _ repository _) as [[|b bs]|err];
        cbn [fst snd app ret]; intros Hin Hfailed;
        decompose_list_elem_of; simplify_eq; by cbn in Hfailed.
    + intros Hin Hfailed. decompose_list_elem_of. by simplify_eq.
  - intros Hin Hfailed. decompose_list_elem_of. by simplify_eq.
Qed.

(** ** deleteBranch, the rest of its behaviour *)

(** Find an interaction in a run that is written out. *)
Ltac find_event :=
  repeat first [apply list_elem_of_here | apply list_elem_of_further].

(** A gateway run that was handed back with no options is not a failed
    one. *)
Ltac accepted_not_failed :=
  match goal with
  | Hok : acceptable noOptions ?result = true,
    Hfailed : exitCode ?result ≠ 0%Z |- _ =>
      rewrite acceptable_noOptions in Hok;
      apply bool_decide_eq_true in Hok; by destruct Hfailed
  end.

(** What the test [includeRemote && remoteName] lets through. *)
Lemma remote_requested includeRemote (remoteName : option string) :
  includeRemote && JS.truthy remoteName = true →
  includeRemote = true
  ∧ ∃ r, remoteName = Some r ∧ r ≠ EmptyString
         ∧ default EmptyString remoteName = r.
Proof.
  intros [-> Htruthy]%andb_true_iff. split; [done|].
  destruct remoteName as [[|c r]|]; try done. by eexists.
Qed.

(** X3: when the local deletion fails, [deleteBranch] rejects with the
    error of the gateway and does nothing else, whatever [includeRemote]
    is: the remote is not contacted. *)
Theorem deleteBranch_local_failure_aborts w repository branch account
    includeRemote h args cwd e answer :
  EvGit args cwd "deleteLocalBranch" e answer
    ∈ events (deleteBranch w repository branch account includeRemote) h →
  failed answer →
  outcome (deleteBranch w repository branch account includeRemote) h
  = Rejected (thrownBy args answer)
  ∧ events (deleteBranch w repository branch account includeRemote) h
    = [EvGit args cwd "deleteLocalBranch" e answer].
Proof.
  intros Hlocal Hfailed. revert Hlocal.
  unfold_run.
  all_cases; intros; decompose_list_elem_of; simplify_eq/=;
    try done; accepted_not_failed.
Qed.

(** X4: the commands [deleteBranch] runs, all in the repository, are the
    local [branch -D <name>] of a [Local] branch and, when [includeRemote]
    is set and the branch has a remote, the push
    [<network arguments> push <remote> :<nameWithoutRemote>], with the
    network arguments and the environment the collaborators resolved. *)
Theorem deleteBranch_commands w repository branch account includeRemote h
    args cwd label e answer :
  EvGit args cwd label e answer
    ∈ events (deleteBranch w repository branch account includeRemote) h →
  cwd = path repository
  ∧ ((type branch = Local ∧ label = "deleteLocalBranch"
      ∧ args = ["branch"; "-D"; name branch] ∧ e = None)
     ∨ (includeRemote = true ∧ label = "deleteRemoteBranch"
        ∧ ∃ remoteName networkArguments url environment,
            remote branch = Some remoteName
            ∧ remoteName ≠ EmptyString
            ∧ EvGitNetworkArguments repository account
                (Resolved networkArguments)
                ∈ events (deleteBranch w repository branch account
                                       includeRemote) h
            ∧ EvEnvForRemoteOperation account url (Resolved environment)
                ∈ events (deleteBranch w repository branch account
                                       includeRemote) h
            ∧ args = networkArguments
                     ++ ["push"; remoteName; ":" +:+ nameWithoutRemote branch]
            ∧ e = Some environment)).
Proof.
  intros Hgit. revert Hgit.
  unfold_run.
  all_cases; intros; decompose_list_elem_of; simplify_eq/=;
    (split; [done|]); try (left; done).
  all: match goal with
       | Hreq : _ && JS.truthy _ = true |- _ =>
           apply remote_requested in Hreq as (-> & r & Hremote & Hne & ->)
       end.
  all: right; split; [done|]; split; [done|];
    eexists _, _, _, _; split; [done|]; split; [done|];
    split; [find_event|]; split; [find_event|]; done.
Qed.

(** X5: when the push ends with exit code 0 and is not classified as
    [BranchDeletionFailed], [deleteBranch] returns true, the push is the
    last thing it did and [deleteRef] is not called. *)
Theorem deleteBranch_push_accepted w repository branch account h
    args cwd e result :
  EvGit args cwd "deleteRemoteBranch" e (Resolved result)
    ∈ events (deleteBranch w repository branch account true) h →
  exitCode result = 0%Z →
  gitError result ≠ Some BranchDeletionFailed →
  outcome (deleteBranch w repository branch account true) h = Resolved true
  ∧ last (events (deleteBranch w repository branch account true) h)
    = Some (EvGit args cwd "deleteRemoteBranch" e (Resolved result))
  ∧ ∀ r ref unref,
      EvDeleteRef r ref unref
        ∉ events (deleteBranch w repository branch account true) h.
Proof.
  intros Hpush Hcode Hclass. revert Hpush.
  unfold_run. destruct (remote branch) as [remoteName|]; cbn [default andb].
  - all_cases; intros; decompose_list_elem_of; simplify_eq/=; try done.
    all: try (split; [done|]; split; [done|];
              intros r ref unref Hin; decompose_list_elem_of; done).
    all: match goal with
         | Hbad : acceptable ?options ?result = false |- _ =>
             unfold acceptable in Hbad; cbn in Hbad; rewrite Hcode in Hbad;
             rewrite bool_decide_true in Hbad by (by apply elem_of_singleton);
             discriminate Hbad
         end.
  - all_cases; intros; decompose_list_elem_of; simplify_eq/=; done.
Qed.

(** X6: when the URL of the remote is resolved, [deleteBranch] logs
    nothing and resolves the environment next, for that URL when it is a
    non-empty string and for the fallback URL when it is null or empty. *)
Theorem deleteBranch_resolved_url w repository branch account h
    remoteName resolved :
  EvGetRemoteURL repository remoteName (Resolved resolved)
    ∈ events (deleteBranch w repository branch account true) h →
  ∃ i url envAnswer,
    let run := events (deleteBranch w repository branch account true) h in
    run !! i = Some (EvGetRemoteURL repository remoteName (Resolved resolved))
    ∧ run !! (i + 1)
      = Some (EvEnvForRemoteOperation account url envAnswer)
    ∧ (JS.truthy resolved = true → resolved = Some url)
    ∧ (JS.truthy resolved = false →
       url = getFallbackUrlForProxyResolve w account repository)
    ∧ ∀ message err, EvLogError message err ∉ run.
Proof.
  intros Hurl. revert Hurl.
  unfold_run.
  all_cases; intros; decompose_list_elem_of; simplify_eq/=; try done.
  all: first
    [ exists 1; eexists _, _; do 2 (split; [reflexivity|])
    | exists 2; eexists _, _; do 2 (split; [reflexivity|]) ].
  all: match goal with
       | |- context [JS.truthy ?r] => destruct r as [[|c s]|]
       end.
  all: (split; [|split]);
    [ done | done | intros message err Hin; by decompose_list_elem_of ].
Qed.

(** X7: [deleteBranch] writes to the log only when the URL of the remote
    could not be resolved, and what it logs is the error of that
    resolution under the name of the remote. *)
Theorem deleteBranch_logs_only_url_failure w repository branch account
    includeRemote h message err :
  EvLogError message err
    ∈ events (deleteBranch w repository branch account includeRemote) h →
  ∃ remoteName,
    remote branch = Some remoteName
    ∧ message = "Could not resolve remote url for remote " +:+ remoteName
    ∧ EvGetRemoteURL repository remoteName (Rejected err)
        ∈ events (deleteBranch w repository branch account includeRemote) h.
Proof.
  intros Hlog. revert Hlog.
  unfold_run.
  all_cases; intros; decompose_list_elem_of; simplify_eq/=; try done.
  all: match goal with
       | Hreq : _ && JS.truthy _ = true |- _ =>
           apply remote_requested in Hreq as (-> & r & Hremote & Hne & ->)
       end.
  all: exists r; split; [done|]; split; [done|]; find_event.
Qed.

(** X8: the interactions of [deleteBranch] follow the order of its text,
    local deletion, network arguments, URL, log entry, environment, push,
    deletion of the tracking ref, and each happens at most once: nothing is
    retried. *)
Theorem deleteBranch_steps_in_order w repository branch account
    includeRemote h :
  StronglySorted lt
    (stage <$> events (deleteBranch w repository branch account
                                    includeRemote) h).
Proof.
  unfold_run.
  all_cases; cbn; repeat (constructor; [|repeat constructor; lia]);
    constructor.
Qed.

(** X9: when [deleteBranch] rejects, the error is the one of the last
    interaction it made, which is never the URL resolution nor the log
    entry: nothing runs after a failure and the error is handed on as it
    came. *)
Theorem deleteBranch_rejection_is_last w repository branch account
    includeRemote h err :
  outcome (deleteBranch w repository branch account includeRemote) h
  = Rejected err →
  ∃ ev,
    last (events (deleteBranch w repository branch account includeRemote) h)
    = Some ev
    ∧ failedWith ev err
    ∧ stage ev ≠ 2 ∧ stage ev ≠ 3.
Proof.
  unfold_run.
  all_cases; intros; simplify_eq/=;
    eexists; (split; [reflexivity|]); done.
Qed.

(** X10: when [deleteBranch] returns, it returns true, the only
    collaborator that may have rejected on the way is the URL resolution,
    and the only command that may have ended with a non-zero exit code is a
    push classified as [BranchDeletionFailed]. *)
Theorem deleteBranch_swallows_only_url w repository branch account
    includeRemote h returned :
  outcome (deleteBranch w repository branch account includeRemote) h
  = Resolved returned →
  returned = true
  ∧ (∀ ev err,
       ev ∈ events (deleteBranch w repository branch account includeRemote) h →
       rejection ev = Some err →
       ∃ remoteName, ev = EvGetRemoteURL repository remoteName (Rejected err))
  ∧ (∀ args cwd label e result,
       EvGit args cwd label e (Resolved result)
         ∈ events (deleteBranch w repository branch account includeRemote) h →
       exitCode result ≠ 0%Z →
       label = "deleteRemoteBranch"
       ∧ gitError result = Some BranchDeletionFailed).
Proof.
  unfold_run.
  all_cases; intros; simplify_eq/=; (split; [done|]); split.
  all: intros; decompose_list_elem_of; simplify_eq/=; eauto.
  all: try accepted_not_failed.
  all: match goal with
       | Hok : acceptable ?options ?result = true,
         Hcode : exitCode ?result ≠ 0%Z |- _ =>
           unfold acceptable in Hok; cbn in Hok;
           rewrite bool_decide_false in Hok
             by (by rewrite elem_of_singleton);
           destruct (gitError result) as [cls|]; [|done];
           apply bool_decide_eq_true, elem_of_singleton in Hok;
           by subst
       end.
Qed.

(** ** More about splitting *)

Section Pieces.

Lemma append_nil_r (s : string) : s +:+ EmptyString = s.
Proof. induction s as [|c s IH]; [done|]. rewrite append_cons. by f_equal. Qed.

(** The pieces of a split contain no separator. *)
Lemma split_pieces_free sep s :
  Forall (λ piece, freeOf sep piece = true) (JS.split sep s).
Proof.
  induction s as [|c s IH]; simpl; [by repeat constructor|].
  destruct (Ascii.eqb c sep) eqn:Hc; [by constructor|].
  destruct (JS.split sep s) as [|piece pieces].
  { constructor; [simpl; by rewrite Hc|constructor]. }
  apply Forall_cons in IH as [Hpiece Hpieces].
  constructor; [|done]. simpl. by rewrite Hc, Hpiece.
Qed.

(** A character that is absent from a text is absent from its pieces. *)
Lemma split_keeps_free c sep s :
  freeOf c s = true →
  Forall (λ piece, freeOf c piece = true) (JS.split sep s).
Proof.
  induction s as [|d s IH]; simpl; [by repeat constructor|].
  intros [Hd Hs]%andb_true_iff. specialize (IH Hs).
  destruct (Ascii.eqb d sep); [by constructor|].
  destruct (JS.split sep s) as [|piece pieces].
  { constructor; [simpl; by rewrite Hd|constructor]. }
  apply Forall_cons in IH as [Hpiece Hpieces].
  constructor; [|done]. simpl. by rewrite Hd, Hpiece.
Qed.

(** A split has one piece more than there are separators. *)
Lemma length_split sep s :
  length (JS.split sep s) = S (occurrences sep s).
Proof.
  induction s as [|c s IH]; simpl; [done|].
  destruct (Ascii.eqb c sep); simpl; [by rewrite IH|].
  destruct (JS.split sep s); simpl in *; done.
Qed.

Lemma elem_of_removelast {A} (l : list A) x : x ∈ removelast l → x ∈ l.
Proof.
  induction l as [|y [|z l] IH]; simpl; [done| |].
  - by intros ?%elem_of_nil.
  - intros [->|Hin]%elem_of_cons; [left|right; by apply IH].
Qed.

Lemma length_removelast {A} (l : list A) :
  length (removelast l) = length l - 1.
Proof.
  induction l as [|y [|z l] IH]; [done..|].
  change (removelast (y :: z :: l)) with (y :: removelast (z :: l)).
  simpl in *. rewrite IH. lia.
Qed.

End Pieces.

(** X18: the names [getBranchesPointedAt] returns contain no line feed,
    and there are as many of them as there are line feeds in the output of
    the command. *)
Theorem getBranchesPointedAt_names w repository commitish h
    args cwd label e result names :
  EvGit args cwd label e (Resolved result)
    ∈ events (getBranchesPointedAt w repository commitish) h →
  outcome (getBranchesPointedAt w repository commitish) h
  = Resolved (Some names) →
  Forall (λ n, freeOf JS.LF n = true) names
  ∧ length names = occurrences JS.LF (stdout result).
Proof.
  unfold events, outcome. rewrite getBranchesPointedAt_run. cbn [fst snd].
  intros Hev. apply list_elem_of_singleton in Hev.
  injection Hev as _ _ _ _ Hanswer. rewrite <- Hanswer. clear Hanswer.
  case_bool_decide; [|done].
  destruct (_ || _); [done|]. intros [= <-].
  rewrite slice_all_but_last. split.
  - apply Forall_forall. intros n Hn%elem_of_removelast.
    revert n Hn. apply Forall_forall, split_pieces_free.
  - rewrite length_removelast, length_split. lia.
Qed.

(** ** More about getMergedBranches *)

Section MergedMore.

Variable w : World.

Lemma mergedBranchesStep_fields canonical merged line sha canonicalRef rest :
  JS.split JS.NUL line = sha :: canonicalRef :: rest →
  mergedBranchesStep canonical merged line
  = if decide (canonicalRef = canonical) then merged
    else <[ canonicalRef := sha ]> merged.
Proof.
  intros Hfields. unfold mergedBranchesStep. rewrite Hfields.
  cbn [JS.destructure2 lookup list_lookup].
  destruct (String.eqb_spec canonicalRef canonical);
    by case_decide.
Qed.

Lemma split_mergedRecord entry :
  freeOf JS.NUL entry.1 = true → freeOf JS.NUL entry.2 = true →
  JS.split JS.NUL (mergedRecord entry) = [entry.1; entry.2].
Proof.
  intros Hsha Href. unfold mergedRecord.
  by rewrite (split_app_sep _ _ _ Hsha), (split_free _ _ Href).
Qed.

(** The loop over records: the excluded ref is never written, and under
    any other ref stands the commit id of its last record. *)
Lemma fold_mergedRecords canonical entries merged ref :
  Forall (λ entry, plain entry.1 ∧ plain entry.2) entries →
  fold_left (mergedBranchesStep canonical) (mergedRecord <$> entries) merged
    !! ref
  = if decide (ref = canonical) then merged !! ref
    else match last (filter (λ entry, entry.2 = ref) entries) with
         | Some entry => Some entry.1
         | None => merged !! ref
         end.
Proof.
  intros Hplain. revert merged.
  induction Hplain as [|entry entries [[_ Hsha] [_ Href]] _ IH];
    intros merged.
  - by case_decide.
  - cbn [fmap list_fmap fold_left]. rewrite IH.
    rewrite (mergedBranchesStep_fields canonical merged _ entry.1 entry.2 [])
      by by apply split_mergedRecord.
    rewrite filter_cons.
    destruct (decide (ref = canonical)) as [->|Hne].
    + case_decide; [done|]. by rewrite lookup_insert_ne.
    + destruct (decide (entry.2 = ref)) as [<-|Hother].
      * rewrite last_cons. rewrite decide_False by done.
        rewrite lookup_insert_eq. by destruct (last _).
      * destruct (last _); [done|].
        case_decide; [done|]. by rewrite lookup_insert_ne.
Qed.

Lemma mergedRecord_free entry :
  plain entry.1 → plain entry.2 → freeOf JS.LF (mergedRecord entry) = true.
Proof.
  intros [Hsha _] [Href _]. unfold mergedRecord.
  rewrite freeOf_app, Hsha. simpl. by rewrite Href.
Qed.

(** What the loop stores was read from a line. *)
Lemma fold_mergedBranchesStep_sound canonical (all lines : list string)
    merged :
  (∀ line, line ∈ lines → line ∈ all) →
  (∀ ref sha, merged !! ref = Some sha →
     ref ≠ canonical
     ∧ ∃ line rest, line ∈ all ∧ JS.split JS.NUL line = sha :: ref :: rest) →
  ∀ ref sha,
    fold_left (mergedBranchesStep canonical) lines merged !! ref = Some sha →
    ref ≠ canonical
    ∧ ∃ line rest, line ∈ all ∧ JS.split JS.NUL line = sha :: ref :: rest.
Proof.
  revert merged. induction lines as [|line lines IH]; intros merged Hall Hinv.
  - done.
  - cbn [fold_left]. apply IH.
    + intros l Hl. apply Hall. by right.
    + intros ref sha. unfold mergedBranchesStep.
      destruct (JS.split JS.NUL line) as [|first [|second rest]] eqn:Hfields;
        cbn [JS.destructure2 lookup list_lookup]; try apply Hinv.
      destruct (String.eqb_spec second canonical) as [->|Hne]; [apply Hinv|].
      destruct (decide (second = ref)) as [<-|Hother].
      * rewrite lookup_insert_eq. intros [= <-]. split; [done|].
        exists line, rest. split; [apply Hall; by left|done].
      * rewrite lookup_insert_ne by done. apply Hinv.
Qed.

End MergedMore.

(** Read the answer of the one command of [getMergedBranches] off a
    hypothesis about its interactions. *)
Ltac merged_answer Hev :=
  revert Hev; unfold events, outcome; rewrite getMergedBranches_run;
  cbn [fst snd]; intros Hev; apply list_elem_of_singleton in Hev;
  injection Hev as <- _ _ _ Hev; rewrite <- Hev; clear Hev.

(** X14: from a listing made of well-formed records, [getMergedBranches]
    returns the map that has, under every canonical ref other than that of
    the branch compared against, the commit id of the last record of that
    ref, and nothing under the ref of the branch compared against: a later
    record of a ref overrides an earlier one. *)
Theorem getMergedBranches_last_record_wins w repository branchName h
    args cwd label e result entries :
  EvGit args cwd label e (Resolved result)
    ∈ events (getMergedBranches w repository branchName) h →
  exitCode result = 0%Z →
  Forall (λ entry, plain entry.1 ∧ plain entry.2) entries →
  stdout result = unlines (mergedRecord <$> entries) →
  ∃ merged,
    outcome (getMergedBranches w repository branchName) h = Resolved merged
    ∧ ∀ ref,
        merged !! ref
        = if decide (ref = formatAsLocalRef w branchName) then None
          else fst <$> last (filter (λ entry, entry.2 = ref) entries).
Proof.
  intros Hev Hcode Hplain Hout. merged_answer Hev.
  rewrite bool_decide_true by done. eexists. split; [reflexivity|].
  intros ref. unfold parseMergedBranches.
  rewrite Hout, <- (append_nil_r (unlines _)), split_unlines.
  - rewrite splice_last, removelast_last, (fold_mergedRecords _ _ _ _ Hplain).
    case_decide; [done|]. by destruct (last _).
  - apply Forall_fmap. eapply Forall_impl; [exact Hplain|].
    intros entry [Hsha Href]. by apply mergedRecord_free.
  - done.
Qed.

(** X15: every entry of the map [getMergedBranches] returns was read from
    a line of the output, whose first field is the commit id and whose
    second field is the ref; the ref is not that of the branch compared
    against, and neither string contains a NUL or a line feed. *)
Theorem getMergedBranches_entries_from_lines w repository branchName h
    args cwd label e result merged ref sha :
  EvGit args cwd label e (Resolved result)
    ∈ events (getMergedBranches w repository branchName) h →
  outcome (getMergedBranches w repository branchName) h = Resolved merged →
  merged !! ref = Some sha →
  ref ≠ formatAsLocalRef w branchName
  ∧ plain sha ∧ plain ref
  ∧ ∃ line rest,
      line ∈ JS.split JS.LF (stdout result)
      ∧ JS.split JS.NUL line = sha :: ref :: rest.
Proof.
  intros Hev. merged_answer Hev.
  case_bool_decide; [|done]. intros [= <-] Hentry.
  unfold parseMergedBranches in Hentry. rewrite splice_last in Hentry.
  destruct (fold_mergedBranchesStep_sound (formatAsLocalRef w branchName)
              (JS.split JS.LF (stdout result)) _ ∅
              (elem_of_removelast _) ltac:(done) ref sha Hentry)
    as (Hne & line & rest & Hline & Hfields).
  split; [done|].
  pose proof (split_pieces_free JS.LF (stdout result)) as Hlf.
  rewrite Forall_forall in Hlf. specialize (Hlf line Hline).
  pose proof (split_keeps_free JS.LF JS.NUL line Hlf) as Hlfs.
  pose proof (split_pieces_free JS.NUL line) as Hnuls.
  rewrite Hfields in Hlfs, Hnuls.
  apply Forall_cons in Hlfs as (? & (? & _)%Forall_cons).
  apply Forall_cons in Hnuls as (? & (? & _)%Forall_cons).
  repeat split; eauto.
Qed.

(** X16: a last piece of output that is not ended by a line feed is lost:
    the result is the one for the terminated lines alone, whatever the
    last piece holds.  In particular an empty output gives an empty map. *)
Theorem getMergedBranches_unterminated_lost w repository branchName h
    args cwd label e result terminated lastPiece :
  EvGit args cwd label e (Resolved result)
    ∈ events (getMergedBranches w repository branchName) h →
  exitCode result = 0%Z →
  Forall (λ l, freeOf JS.LF l = true) terminated →
  freeOf JS.LF lastPiece = true →
  stdout result = unlines terminated +:+ lastPiece →
  outcome (getMergedBranches w repository branchName) h
  = Resolved (parseMergedBranches (formatAsLocalRef w branchName)
                                  (unlines terminated))
  ∧ (terminated = [] →
     outcome (getMergedBranches w repository branchName) h = Resolved ∅).
Proof.
  intros Hev Hcode Hlines Hlast Hout. merged_answer Hev.
  rewrite bool_decide_true by done.
  assert (parseMergedBranches (formatAsLocalRef w branchName) (stdout result)
          = parseMergedBranches (formatAsLocalRef w branchName)
                                (unlines terminated)) as ->.
  { unfold parseMergedBranches.
    rewrite Hout, split_unlines by done.
    rewrite <- (append_nil_r (unlines terminated)), split_unlines by done.
    by rewrite !splice_last, !removelast_last. }
  split; [done|]. by intros ->.
Qed.

(** X17: when the listing command fails, be it with output,
    [getMergedBranches] rejects with the error of the gateway: no partial
    map is returned. *)
Theorem getMergedBranches_failure w repository branchName h
    args cwd label e answer :
  EvGit args cwd label e answer
    ∈ events (getMergedBranches w repository branchName) h →
  failed answer →
  outcome (getMergedBranches w repository branchName) h
  = Rejected (thrownBy args answer).
Proof.
  intros Hev Hfailed. merged_answer Hev.
  destruct answer as [result|err]; [|done].
  by rewrite bool_decide_false.
Qed.

(** X19: a line with more than two fields counts for its first two: the
    line is stored under its second field with its first field for value,
    unless the second field is the ref of the branch compared against, and
    what follows the second NUL is ignored. *)
Theorem getMergedBranches_reads_two_fields w repository branchName h
    args cwd label e result before line after sha ref rest :
  EvGit args cwd label e (Resolved result)
    ∈ events (getMergedBranches w repository branchName) h →
  exitCode result = 0%Z →
  JS.splice (JS.split JS.LF (stdout result)) (-1) 1 = before ++ line :: after →
  JS.split JS.NUL line = sha :: ref :: rest →
  ref ≠ formatAsLocalRef w branchName →
  outcome (getMergedBranches w repository branchName) h
  = Resolved
      (fold_left (mergedBranchesStep (formatAsLocalRef w branchName)) after
         (<[ ref := sha ]>
            (fold_left (mergedBranchesStep (formatAsLocalRef w branchName))
                       before ∅))).
Proof.
  intros Hev Hcode Hlines Hfields Hne. merged_answer Hev.
  rewrite bool_decide_true by done. f_equal.
  unfold parseMergedBranches. rewrite Hlines, fold_left_app. cbn [fold_left].
  rewrite (mergedBranchesStep_fields _ _ _ _ _ _ Hfields).
  by rewrite decide_False.
Qed.

(** ** The further statements at concrete inputs *)

(** The local deletion of [feature] ends with exit code 1. *)
Lemma deleteBranch_local_failure_aborts_witness :
  outcome (deleteBranch (exitingWorld 1) theRepository featureBranch None true)
          []
  = Rejected (GitError (exited 1) ["branch"; "-D"; "feature"])
  ∧ events (deleteBranch (exitingWorld 1) theRepository featureBranch None
                         true) []
    = [EvGit ["branch"; "-D"; "feature"] "/home/user/project"
             "deleteLocalBranch" None (Resolved (exited 1))].
Proof.
  apply (deleteBranch_local_failure_aborts (exitingWorld 1) theRepository
           featureBranch None true [] ["branch"; "-D"; "feature"]
           "/home/user/project" None (Resolved (exited 1))).
  - vm_compute. find_event.
  - discriminate.
Defined.

(** The push of [goneWorld] is the network arguments followed by
    [push origin :feature]. *)
Lemma deleteBranch_commands_witness :
  ∃ networkArguments,
    thePush = networkArguments ++ ["push"; "origin"; ":feature"].
Proof.
  destruct (deleteBranch_commands goneWorld theRepository featureBranch None
              true [] thePush "/home/user/project" "deleteRemoteBranch"
              (Some ∅) (Resolved alreadyGone))
    as [_ [(_ & Hlabel & _)
          |(_ & _ & r & networkArguments & url & environment
              & Hremote & _ & _ & _ & Hargs & _)]].
  - vm_compute. find_event.
  - discriminate Hlabel.
  - injection Hremote as <-. by exists networkArguments.
Defined.

(** In [noUrlWorld] the push succeeds. *)
Lemma deleteBranch_push_accepted_witness :
  outcome (deleteBranch noUrlWorld theRepository featureBranch None true) []
  = Resolved true.
Proof.
  apply (deleteBranch_push_accepted noUrlWorld theRepository featureBranch
           None [] thePush "/home/user/project" (Some ∅) (printed EmptyString)).
  - vm_compute. find_event.
  - reflexivity.
  - discriminate.
Defined.

(** In [goneWorld] the URL is resolved and the environment is resolved for
    it. *)
Lemma deleteBranch_resolved_url_witness :
  ∃ i envAnswer,
    events (deleteBranch goneWorld theRepository featureBranch None true) []
      !! (i + 1)
    = Some (EvEnvForRemoteOperation None
              "https://github.com/user/project.git" envAnswer).
Proof.
  destruct (deleteBranch_resolved_url goneWorld theRepository featureBranch
              None [] "origin" (Some "https://github.com/user/project.git"))
    as (i & url & envAnswer & _ & Henv & Hurl & _).
  - vm_compute. find_event.
  - exists i, envAnswer. injection (Hurl eq_refl) as ->. exact Henv.
Defined.

(** The log entry of [noUrlWorld]. *)
Lemma deleteBranch_logs_only_url_failure_witness :
  ∃ remoteName,
    remote featureBranch = Some remoteName
    ∧ "Could not resolve remote url for remote origin"
      = "Could not resolve remote url for remote " +:+ remoteName
    ∧ EvGetRemoteURL theRepository remoteName
        (Rejected (Error "No such remote 'origin'"))
        ∈ events (deleteBranch noUrlWorld theRepository featureBranch None
                               true) [].
Proof.
  apply (deleteBranch_logs_only_url_failure noUrlWorld theRepository
           featureBranch None true []).
  vm_compute. find_event.
Defined.

(** In [deniedWorld] the call rejects with the error of the push, its last
    interaction. *)
Lemma deleteBranch_rejection_is_last_witness :
  ∃ ev,
    last (events (deleteBranch deniedWorld theRepository featureBranch None
                               true) [])
    = Some ev
    ∧ failedWith ev (GitError notAuthenticated thePush)
    ∧ stage ev ≠ 2 ∧ stage ev ≠ 3.
Proof.
  apply (deleteBranch_rejection_is_last deniedWorld theRepository
           featureBranch None true []).
  vm_compute. reflexivity.
Defined.

(** In [noUrlWorld] the call returns although the URL resolution
    rejected. *)
Lemma deleteBranch_swallows_only_url_witness :
  ∃ remoteName,
    EvGetRemoteURL theRepository "origin"
      (Rejected (Error "No such remote 'origin'"))
    = EvGetRemoteURL theRepository remoteName
        (Rejected (Error "No such remote 'origin'")).
Proof.
  destruct (deleteBranch_swallows_only_url noUrlWorld theRepository
              featureBranch None true [] true) as (_ & Hrejected & _).
  - vm_compute. reflexivity.
  - apply Hrejected.
    + vm_compute. find_event.
    + reflexivity.
Defined.

(** Branching from [main]. *)
Lemma createBranch_plain_start_witness :
  ∃ answer,
    events (createBranch (printingWorld EmptyString) theRepository "topic"
                         (Some "main")) [] !! 0
    = Some (EvGit ["branch"; "topic"; "main"] "/home/user/project"
                  "createBranch" None answer).
Proof.
  apply (createBranch_plain_start (printingWorld EmptyString) theRepository
           "topic" (Some "main") []).
  intros sp [= <-]. reflexivity.
Defined.


(** The creation command ends with exit code 128. *)
Lemma createBranch_failure_skips_lookup_witness :
  outcome (createBranch (exitingWorld 128) theRepository "topic" None) []
  = Rejected (GitError (exited 128) ["branch"; "topic"]).
Proof.
  apply (createBranch_failure_skips_lookup (exitingWorld 128) theRepository
           "topic" None [] ["branch"; "topic"] "/home/user/project"
           "createBranch" None (Resolved (exited 128))).
  - vm_compute. find_event.
  - discriminate.
Defined.

(** Two records of [refs/heads/x]: the second one stays. *)
Lemma getMergedBranches_last_record_wins_witness :
  ∃ merged,
    outcome (getMergedBranches
               (printingWorld
                  (unlines (mergedRecord <$> [("1f", "refs/heads/x");
                                              ("2e", "refs/heads/x")])))
               theRepository "main") []
    = Resolved merged
    ∧ merged !! "refs/heads/x" = Some "2e".
Proof.
  destruct (getMergedBranches_last_record_wins
              (printingWorld
                 (unlines (mergedRecord <$> [("1f", "refs/heads/x");
                                             ("2e", "refs/heads/x")])))
              theRepository "main" [] (mergedInto "main")
              "/home/user/project" "mergedBranches" None
              (printed (unlines (mergedRecord <$> [("1f", "refs/heads/x");
                                                   ("2e", "refs/heads/x")])))
              [("1f", "refs/heads/x"); ("2e", "refs/heads/x")])
    as (merged & Hsettled & Hlookup).
  - vm_compute. find_event.
  - reflexivity.
  - repeat constructor.
  - reflexivity.
  - exists merged. split; [exact Hsettled|]. rewrite Hlookup. reflexivity.
Defined.

(** The entry of [x] in the listing of [x] and [y]. *)
Lemma getMergedBranches_entries_from_lines_witness :
  "refs/heads/x" ≠ "refs/heads/main" ∧ plain "1f" ∧ plain "refs/heads/x".
Proof.
  destruct (getMergedBranches_entries_from_lines
              (printingWorld (listingOfXY "1f" "2e")) theRepository "main" []
              (mergedInto "main") "/home/user/project" "mergedBranches" None
              (printed (listingOfXY "1f" "2e"))
              {[ "refs/heads/x" := "1f"; "refs/heads/y" := "2e" ]}
              "refs/heads/x" "1f")
    as (Hne & Hsha & Href & _).
  - vm_compute. find_event.
  - vm_compute. reflexivity.
  - vm_compute. reflexivity.
  - repeat split; assumption.
Defined.

(** The record of [y] lacks its line feed. *)
Lemma getMergedBranches_unterminated_lost_witness :
  outcome (getMergedBranches
             (printingWorld ("1f" +:+ nul +:+ "refs/heads/x" +:+ lf +:+
                             "2e" +:+ nul +:+ "refs/heads/y"))
             theRepository "main") []
  = Resolved {[ "refs/heads/x" := "1f" ]}.
Proof.
  destruct (getMergedBranches_unterminated_lost
              (printingWorld ("1f" +:+ nul +:+ "refs/heads/x" +:+ lf +:+
                              "2e" +:+ nul +:+ "refs/heads/y"))
              theRepository "main" []
              (mergedInto "main") "/home/user/project" "mergedBranches" None
              (printed ("1f" +:+ nul +:+ "refs/heads/x" +:+ lf +:+
                        "2e" +:+ nul +:+ "refs/heads/y"))
              ["1f" +:+ nul +:+ "refs/heads/x"]
              ("2e" +:+ nul +:+ "refs/heads/y"))
    as [Hsettled _].
  - vm_compute. find_event.
  - reflexivity.
  - repeat constructor.
  - reflexivity.
  - reflexivity.
  - rewrite Hsettled. vm_compute. reflexivity.
Defined.

(** The listing ends with exit code 128. *)
Lemma getMergedBranches_failure_witness :
  outcome (getMergedBranches (exitingWorld 128) theRepository "main") []
  = Rejected (GitError (exited 128) (mergedInto "main")).
Proof.
  apply (getMergedBranches_failure (exitingWorld 128) theRepository "main" []
           (mergedInto "main") "/home/user/project" "mergedBranches" None
           (Resolved (exited 128))).
  - vm_compute. find_event.
  - discriminate.
Defined.

(** Two terminated lines give two names. *)
Lemma getBranchesPointedAt_names_witness :
  Forall (λ n, freeOf JS.LF n = true) ["main"; "topic"]
  ∧ length ["main"; "topic"]
    = occurrences JS.LF ("main" +:+ lf +:+ "topic" +:+ lf).
Proof.
  apply (getBranchesPointedAt_names
           (printingWorld ("main" +:+ lf +:+ "topic" +:+ lf)) theRepository
           "HEAD" [] pointsAtHead "/home/user/project" "branchPointedAt" None
           (printed ("main" +:+ lf +:+ "topic" +:+ lf))).
  - vm_compute. find_event.
  - vm_compute. reflexivity.
Defined.

(** A line with a third field. *)
Lemma getMergedBranches_reads_two_fields_witness :
  outcome (getMergedBranches
             (printingWorld ("1f" +:+ nul +:+ "refs/heads/x" +:+ nul +:+
                             "rest" +:+ lf))
             theRepository "main") []
  = Resolved {[ "refs/heads/x" := "1f" ]}.
Proof.
  etransitivity.
  - apply (getMergedBranches_reads_two_fields _ theRepository "main" []
             (mergedInto "main") "/home/user/project" "mergedBranches" None
             (printed ("1f" +:+ nul +:+ "refs/heads/x" +:+ nul +:+
                       "rest" +:+ lf))
             [] ("1f" +:+ nul +:+ "refs/heads/x" +:+ nul +:+ "rest") []
             "1f" "refs/heads/x" ["rest"]).
    + vm_compute. find_event.
    + reflexivity.
    + reflexivity.
    + reflexivity.
    + discriminate.
  - vm_compute. reflexivity.
Defined.

(** Renaming the remote-tracking branch [origin/feature]. *)
Lemma renameBranch_one_command_witness :
  ∃ answer,
    events (renameBranch (printingWorld EmptyString) theRepository
                         originFeature "renamed") []
    = [EvGit ["branch"; "-m"; "feature"; "renamed"] "/home/user/project"
             "renameBranch" None answer].
Proof.
  destruct (renameBranch_one_command (printingWorld EmptyString)
              theRepository originFeature "renamed" [])
    as (answer & Hrun & _).
  exists answer. exact Hrun.
Defined.

(** The forced deletion of [feature]. *)
Lemma deleteLocalBranch_forces_witness :
  ∃ answer,
    events (deleteLocalBranch (printingWorld EmptyString) theRepository
                              "feature") []
    = [EvGit ["branch"; "-D"; "feature"] "/home/user/project"
             "deleteLocalBranch" None answer].
Proof.
  destruct (deleteLocalBranch_forces (printingWorld EmptyString)
              theRepository "feature" [])
    as (answer & Hrun & _).
  exists answer. exact Hrun.
Defined.
